(** * Porter: sanitising and resolving sensitive data

  A shallow embedding of [pkg/sanitizer/service.go] and
  [pkg/claims/run.go].

  Conventions of the embedding.
  - A Go [string] is a Rocq [string] (both are sequences of 8-bit
    characters); a Go [[]byte] is a [list byte]; the conversions
    [string(b)] and [[]byte(s)] are [string_of_list_byte] and
    [list_byte_of_string].
  - A Go slice is a [list]; a nil slice and an empty slice are both [[]].
  - A Go [map[string]interface{}] is a [gmap string any]; a nil map is [∅].
  - A Go function returning [(T, error)] returns a pair [T * option error],
    with [None] for a nil error.
  - The secret store is an object with mutable state: its state is passed
    explicitly, together with a log of the [Create] calls made so far. *)

From stdpp Require Import gmap strings list fin_maps.
From Stdlib Require Import Strings.String Strings.Ascii Strings.Byte.

Local Open Scope string_scope.
Local Open Scope list_scope.

(** ** Errors ([github.com/pkg/errors]) *)
Module errors.

Inductive error : Type :=
| New (msg : string)
| Wrap (cause : error) (msg : string)
| WithMessagef (cause : error) (format : string) (args : list string).

End errors.
Export errors(error).

(** Dynamically typed values ([interface{}]) held by parameter maps. *)
#[local] Unset Elimination Schemes.
Inductive any : Type :=
| AnyNil
| AnyBool (b : bool)
| AnyInt (n : Z)
| AnyString (s : string)
| AnyList (l : list any)
| AnyMap (m : list (string * any)).
#[local] Set Elimination Schemes.

(** ** Package [secrets] *)
Module secrets.

Record Source : Type := mkSource { Key : string; SourceValue : string }.

Record Strategy : Type :=
  mkStrategy { Name : string; Source_ : Source; Value : string }.

(** The reserved marker of an indirection into the secret store. *)
Definition SourceSecret : string := "secret".

(** The [Store] interface over a store state [S]. [Create] returns the new
    state and the error; [Resolve] only reads the state. *)
Class Store (S : Type) : Type := {
  Create : S → string → string → string → S * option error;
  Resolve : S → string → string → string * option error
}.

(** Modelled from the spec: the contract of the Secret Store collaborator
    (absent from the sources): plaintext is addressed by a key pair;
    [create] fails on a duplicate key unless it dedupes, so a successful
    [create] never replaces the plaintext held under an existing key. *)
Class StoreContract (S : Type) `{Store S} : Prop := {
  resolve_created : ∀ st st' k v p,
    Create st k v p = (st', None) → Resolve st' k v = (p, None);
  resolve_other : ∀ st st' k v p k' v',
    Create st k v p = (st', None) → (k', v') ≠ (k, v) →
    Resolve st' k' v' = Resolve st k' v';
  create_keeps : ∀ st st' k v p p0,
    Resolve st k v = (p0, None) → Create st k v p = (st', None) → p = p0
}.

(** The store seen by the program: its state and the [Create] calls made. *)
Record World (S : Type) : Type :=
  mkWorld { state : S; created : list (string * string * string) }.
Arguments mkWorld {S} _ _.
Arguments state {S} _.
Arguments created {S} _.

Definition callCreate {S} `{Store S} (w : World S) (k v p : string)
  : World S * option error :=
  let '(st', err) := Create (state w) k v p in
  (mkWorld st' (created w ++ [(k, v, p)]), err).

Definition callResolve {S} `{Store S} (w : World S) (k v : string)
  : string * option error :=
  Resolve (state w) k v.

End secrets.

(** Modelled from the spec: an in-memory Secret Store (the backends are
  absent from the sources): [create] fails on a duplicate key pair,
  [resolve] fails when the key pair is absent. *)
Module inmemory.

Definition Store : Type := gmap (string * string) string.

Definition Create (st : Store) (k v p : string) : Store * option error :=
  match st !! (k, v) with
  | Some _ => (st, Some (errors.New "secret already exists"))
  | None => (<[(k, v) := p]> st, None)
  end.

Definition Resolve (st : Store) (k v : string) : string * option error :=
  match st !! (k, v) with
  | Some p => (p, None)
  | None => ("", Some (errors.New "secret not found"))
  end.

#[global] Instance store : secrets.Store Store :=
  {| secrets.Create := Create; secrets.Resolve := Resolve |}.

Definition empty : secrets.World Store := secrets.mkWorld (∅ : Store) [].

End inmemory.

(** Modelled from the spec: an in-memory Secret Store that dedupes (the
    backends are absent from the sources): [create] under a key pair that
    is taken succeeds when the plaintext is the one already held, and fails
    otherwise. *)
Module dedupe.

Record Store : Type := mkStore { content : gmap (string * string) string }.

Definition Create (st : Store) (k v p : string) : Store * option error :=
  match content st !! (k, v) with
  | Some p0 =>
      if String.eqb p0 p then (st, None)
      else (st, Some (errors.New "secret already exists"))
  | None => (mkStore (<[(k, v) := p]> (content st)), None)
  end.

Definition Resolve (st : Store) (k v : string) : string * option error :=
  match content st !! (k, v) with
  | Some p => (p, None)
  | None => ("", Some (errors.New "secret not found"))
  end.

#[global] Instance store : secrets.Store Store :=
  {| secrets.Create := Create; secrets.Resolve := Resolve |}.

Definition empty : secrets.World Store := secrets.mkWorld (mkStore ∅) [].

End dedupe.

(** ** Package [cnab] *)
Module cnab.

(** [bundle.Action] of cnab-go, as far as [ShouldRecord] reads it. *)
Record Action : Type := mkAction { Modifies : bool; Stateless : bool }.

(** Modelled from the spec: the Bundle Metadata Oracle (the bundle
    definition and [cnab.ExtendedBundle] are absent from the sources). A
    bundle is the answers it gives to the queries the code makes. *)
Record ExtendedBundle : Type := mkBundle {
  GetAction : string → Action * option error;
  IsSensitiveParameter : string → bool;
  IsOutputSensitive : string → bool * option error;
  ConvertParameterValue : string → any → any * option error
}.

End cnab.

(** [cnab.Claim], with the fields that [Run.ToCNAB] fills. *)
Module cnab_Claim.

Record Claim : Type := mkClaim {
  SchemaVersion : string;
  ID : string;
  Installation : string;
  Revision : string;
  Created : Z;
  Action : string;
  Bundle : cnab.ExtendedBundle;
  BundleReference : string;
  Parameters : gmap string any;
  Custom : any
}.

End cnab_Claim.

(** ** Package [parameters] *)
Module parameters.

(** Modelled from the spec: a ParameterSet is a named, ordered collection of
    Strategy entries with a boolean internal marker (the type is absent
    from the sources). *)
Record ParameterSet : Type := mkParameterSet {
  SetName : string;
  Internal : bool;
  Parameters : list secrets.Strategy
}.

(** The zero value [parameters.ParameterSet{}]. *)
Definition zero : ParameterSet := mkParameterSet "" false [].

Definition IsInternalParameterSet (s : ParameterSet) : bool := Internal s.

(** Modelled from the spec: [defaultStrategy(name, value)] builds a plain
    strategy, with an empty source and the plaintext value (the function is
    absent from the sources). *)
Definition DefaultStrategy (name value : string) : secrets.Strategy :=
  secrets.mkStrategy name (secrets.mkSource "" "") value.

(** The [Provider] interface, as far as the code calls it. *)
Record Provider : Type := mkProvider {
  ResolveAll : ParameterSet → gmap string any * option error
}.

End parameters.

(** ** Package [claims] *)
Module claims.

(** [claims.Output], as far as the sanitizer reads and writes it. *)
Record Output : Type := mkOutput {
  Name : string;
  RunID : string;
  Key : string;
  Value : list byte
}.

(** The [claims.Outputs] collection is absent from the sources: it is taken
    as an interface, [Value] listing the outputs of a collection and
    [NewOutputs] building a collection from a list. *)
Class OutputsAPI (Outputs : Type) : Type := {
  OutputsValue : Outputs → list Output;
  NewOutputs : list Output → Outputs
}.

(** [Run] represents the execution of an installation's bundle. *)
Record Run : Type := mkRun {
  SchemaVersion : string;
  ID : string;
  Created : Z;
  Namespace : string;
  Installation : string;
  Revision : string;
  Action : string;
  Bundle : cnab.ExtendedBundle;
  BundleReference : string;
  BundleDigest : string;
  ParameterOverrides : gmap string any;
  CredentialSets : list string;
  ParameterSets : list parameters.ParameterSet;
  Parameters : gmap string any;
  Custom : any
}.

(** [r.ParameterSets = psets] *)
Definition withParameterSets (r : Run) (psets : list parameters.ParameterSet) : Run :=
  mkRun (SchemaVersion r) (ID r) (Created r) (Namespace r) (Installation r)
    (Revision r) (Action r) (Bundle r) (BundleReference r) (BundleDigest r)
    (ParameterOverrides r) (CredentialSets r) psets (Parameters r) (Custom r).

(** [r.Parameters = params] *)
Definition withParameters (r : Run) (params : gmap string any) : Run :=
  mkRun (SchemaVersion r) (ID r) (Created r) (Namespace r) (Installation r)
    (Revision r) (Action r) (Bundle r) (BundleReference r) (BundleDigest r)
    (ParameterOverrides r) (CredentialSets r) (ParameterSets r) params (Custom r).

(** [ShouldRecord] the current run in the installation history. *)
Definition ShouldRecord (r : Run) : bool :=
  (* Assume all actions modify bundle resources, and should be recorded. *)
  let stateful := true in
  let modifies := true in
  let '(action, err) := cnab.GetAction (Bundle r) (Action r) in
  let '(modifies, stateful) :=
    match err with
    | None => (cnab.Modifies action, negb (cnab.Stateless action))
    | Some _ => (modifies, stateful)
    end in
  modifies || stateful.

(** The inner loop of [EncodeInternalParameterSet]: [range] is what remains
    of the ranged-over slice, [i] the current index and [params] the slice
    being updated in place. *)
Fixpoint encodeParameters (bun : cnab.ExtendedBundle) (id : string) (i : nat)
    (range params : list secrets.Strategy) : list secrets.Strategy :=
  match range with
  | [] => params
  | param :: rest =>
      if negb (cnab.IsSensitiveParameter bun (secrets.Name param))
      then encodeParameters bun id (S i) rest params
      else
        let param' :=
          secrets.mkStrategy (secrets.Name param)
            (secrets.mkSource secrets.SourceSecret (id +:+ secrets.Name param))
            (secrets.Value param) in
        encodeParameters bun id (S i) rest (<[i := param']> params)
  end.

(** The outer loop: [psets] is what remains of [r.ParameterSets] from index
    [i] on. The receiver is a pointer: the updated run is returned first.
    Lists are values: a parameter set whose slice shares its backing array
    with the internal set's, which in Go sees the writes of the inner loop,
    is outside this model. *)
Fixpoint encodeInternalFrom (r : Run) (i : nat)
    (psets : list parameters.ParameterSet) : Run * (parameters.ParameterSet * bool) :=
  match psets with
  | [] => (r, (parameters.zero, false))
  | pset :: rest =>
      if negb (parameters.IsInternalParameterSet pset)
      then encodeInternalFrom r (S i) rest
      else
        let bun := Bundle r in
        let pset' :=
          parameters.mkParameterSet (parameters.SetName pset)
            (parameters.Internal pset)
            (encodeParameters bun (ID r) 0 (parameters.Parameters pset)
               (parameters.Parameters pset)) in
        (withParameterSets r (<[i := pset']> (ParameterSets r)), (pset', true))
  end.

Definition EncodeInternalParameterSet (r : Run)
  : Run * (parameters.ParameterSet * bool) :=
  encodeInternalFrom r 0 (ParameterSets r).

(** [for key, value := range params { resolved[key] = value }] *)
Definition mergeInto (params resolved : gmap string any) : gmap string any :=
  map_fold (λ key value acc, <[key := value]> acc) resolved params.

Section ResolveSensitiveData.

(** [ParameterSet.Resolve(resolver, bun)] is absent from the sources. *)
Variable ParameterSetResolve :
  parameters.ParameterSet → parameters.Provider → cnab.ExtendedBundle →
  gmap string any * option error.

Fixpoint resolveFrom (resolver : parameters.Provider) (bun : cnab.ExtendedBundle)
    (psets : list parameters.ParameterSet) (resolved : gmap string any)
  : gmap string any * option error :=
  match psets with
  | [] => (resolved, None)
  | pset :: rest =>
      let '(params, err) := ParameterSetResolve pset resolver bun in
      match err with
      | Some e => (resolved, Some e)
      | None => resolveFrom resolver bun rest (mergeInto params resolved)
      end
  end.

(** [ResolveSensitiveData] resolves sensitive values on a run record. *)
Definition ResolveSensitiveData (r : Run) (resolver : parameters.Provider)
  : Run * option error :=
  let bun := Bundle r in
  match resolveFrom resolver bun (ParameterSets r) ∅ with
  | (_, Some err) => (r, Some err)
  | (resolved, None) => (withParameters r resolved, None)
  end.

End ResolveSensitiveData.

Section ToCNAB.

(** [CNABSchemaVersion()] is absent from the sources. *)
Variable CNABSchemaVersion : string.

(** [ToCNAB] associated with the run. *)
Definition ToCNAB (r : Run) : cnab_Claim.Claim :=
  cnab_Claim.mkClaim
    CNABSchemaVersion
    (ID r)
    (* CNAB doesn't have the concept of namespace, so we smoosh them
       together to make a unique name *)
    ((Namespace r +:+ "/") +:+ Installation r)
    (Revision r)
    (Created r)
    (Action r)
    (Bundle r)
    (BundleReference r)
    (Parameters r)
    (Custom r).

End ToCNAB.

End claims.

(** ** Package [sanitizer] *)
Module sanitizer.

(** [err != nil] *)
Definition failed (err : option error) : bool :=
  match err with Some _ => true | None => false end.

(** The [Service] for sanitizing sensitive data. Its [secrets] field is the
    store whose state the functions below take and return. *)
Record Service : Type := NewService { parameter : parameters.Provider }.

Definition encodeSecretParam (param : secrets.Strategy) (id : string)
  : secrets.Strategy :=
  secrets.mkStrategy (secrets.Name param)
    (secrets.mkSource secrets.SourceSecret (id +:+ secrets.Name param))
    (secrets.Value param).

Definition encodeOutput (output : claims.Output) : claims.Output :=
  claims.mkOutput (claims.Name output) (claims.RunID output)
    (claims.RunID output +:+ claims.Name output) [].

Section Service.

Context {S : Type} `{secrets.Store S}.
Context {Outputs : Type} `{claims.OutputsAPI Outputs}.

(** The loop of [Parameters]: [params] is what remains of the input and
    [strategies] the slice appended to so far. *)
Fixpoint parametersFrom (w : secrets.World S) (params : list secrets.Strategy)
    (bun : cnab.ExtendedBundle) (id : string) (strategies : list secrets.Strategy)
  : secrets.World S * (list secrets.Strategy * option error) :=
  match params with
  | [] =>
      if decide (List.length strategies = 0) then (w, ([], None))
      else (w, (strategies, None))
  | param :: rest =>
      let strategy :=
        parameters.DefaultStrategy (secrets.Name param) (secrets.Value param) in
      if cnab.IsSensitiveParameter bun (secrets.Name param) then
        let encodedStrategy := encodeSecretParam strategy id in
        let '(w', err) :=
          secrets.callCreate w
            (secrets.Key (secrets.Source_ encodedStrategy))
            (secrets.SourceValue (secrets.Source_ encodedStrategy))
            (secrets.Value encodedStrategy) in
        match err with
        | Some e =>
            (w', ([], Some (errors.Wrap e
                     "failed to save sensitive param to secrete store")))
        | None => parametersFrom w' rest bun id (strategies ++ [encodedStrategy])
        end
      else parametersFrom w rest bun id (strategies ++ [strategy])
  end.

(** [Parameters] clears out sensitive data in strategized parameter data and
    returns the sanitized values after saving the sensitive data to the
    secret store. *)
Definition Parameters (w : secrets.World S) (params : list secrets.Strategy)
    (bun : cnab.ExtendedBundle) (id : string)
  : secrets.World S * (list secrets.Strategy * option error) :=
  parametersFrom w params bun id [].

(** The body of the loop of [ResolveParameterSet]. *)
Definition convertInto (bun : cnab.ExtendedBundle) (name : string) (value : any)
    (resolved : gmap string any) : gmap string any :=
  let '(paramValue, err) := cnab.ConvertParameterValue bun name value in
  let paramValue := if failed err then value else paramValue in
  <[name := paramValue]> resolved.

Definition ResolveParameterSet (s : Service) (pset : parameters.ParameterSet)
    (bun : cnab.ExtendedBundle) : gmap string any * option error :=
  let '(params, err) := parameters.ResolveAll (parameter s) pset in
  match err with
  | Some e => (∅, Some e)
  | None => (map_fold (convertInto bun) ∅ params, None)
  end.

Definition Output (w : secrets.World S) (output : claims.Output)
    (bun : cnab.ExtendedBundle) : secrets.World S * (claims.Output * option error) :=
  let '(sensitive, err) := cnab.IsOutputSensitive bun (claims.Name output) in
  if failed err || negb sensitive then (w, (output, err))
  else
    let secretOt := encodeOutput output in
    let '(w', err) :=
      secrets.callCreate w secrets.SourceSecret (claims.Key secretOt)
        (string_of_list_byte (claims.Value output)) in
    match err with
    | Some e => (w', (secretOt, Some e))
    | None => (w', (secretOt, None))
    end.

Definition ResolveOutput (w : secrets.World S) (output : claims.Output)
  : claims.Output * option error :=
  let '(resolved, err) :=
    secrets.callResolve w secrets.SourceSecret (claims.Key output) in
  match err with
  | Some e => (output, Some e)
  | None =>
      (claims.mkOutput (claims.Name output) (claims.RunID output)
         (claims.Key output) (list_byte_of_string resolved), None)
  end.

(** The loop of [ResolveOutputs]: [o] is the collection passed in, [ots]
    what remains of [o.Value()] and [resolved] the slice appended to. *)
Fixpoint resolveOutputsFrom (w : secrets.World S) (o : Outputs)
    (ots : list claims.Output) (bun : cnab.ExtendedBundle)
    (resolved : list claims.Output) : Outputs * option error :=
  match ots with
  | [] => (claims.NewOutputs resolved, None)
  | ot :: rest =>
      let '(sensitive, err) := cnab.IsOutputSensitive bun (claims.Name ot) in
      if failed err || negb sensitive
      then resolveOutputsFrom w o rest bun (resolved ++ [ot])
      else
        let '(r, err) := ResolveOutput w ot in
        match err with
        | Some e =>
            (o, Some (errors.WithMessagef e
                        "failed to resolve output %q using key %q"
                        [claims.Name ot; claims.Key ot]))
        | None => resolveOutputsFrom w o rest bun (resolved ++ [r])
        end
  end.

Definition ResolveOutputs (w : secrets.World S) (o : Outputs)
    (bun : cnab.ExtendedBundle) : Outputs * option error :=
  resolveOutputsFrom w o (claims.OutputsValue o) bun [].

End Service.

Section RawParameters.

Context {S : Type} `{secrets.Store S}.

(** [bun.WriteParameterToString] is absent from the sources. *)
Variable WriteParameterToString :
  cnab.ExtendedBundle → string → any → string * option error.

(** The first loop of [RawParameters]. Go leaves the order of a range over
    a map unspecified: [params] lists the entries of the map in the order in
    which the range yields them, and [strategies] is the slice appended to. *)
Fixpoint rawStrategiesFrom (params : list (string * any))
    (bun : cnab.ExtendedBundle) (strategies : list secrets.Strategy)
  : list secrets.Strategy * option error :=
  match params with
  | [] => (strategies, None)
  | (name, value) :: rest =>
      let '(stringVal, err) := WriteParameterToString bun name value in
      match err with
      | Some e => ([], Some e)
      | None =>
          let strategy := parameters.DefaultStrategy name stringVal in
          rawStrategiesFrom rest bun (strategies ++ [strategy])
      end
  end.

(** [RawParameters] clears out sensitive data in raw parameter values before
    transforming the raw values into secret strategies. *)
Definition RawParameters (w : secrets.World S) (params : list (string * any))
    (bun : cnab.ExtendedBundle) (id : string)
  : secrets.World S * (list secrets.Strategy * option error) :=
  let '(strategies, err) := rawStrategiesFrom params bun [] in
  match err with
  | Some e => (w, ([], Some e))
  | None =>
      let '(w', (strategies, err)) := Parameters w strategies bun id in
      match err with
      | Some e => (w', ([], Some e))
      | None => (w', (strategies, None))
      end
  end.

End RawParameters.

End sanitizer.

(** ** Package [mixinprovider] ([pkg/mixin/provider/filesystem.go]) *)

(** [os.FileInfo], as far as [GetMixins] reads it. *)
Module os.

Record FileInfo : Type := mkFileInfo { Name : string; IsDir : bool }.

End os.

(** [mixin.Metadata], with the fields that [GetMixins] fills. *)
Module mixin.

Record Metadata : Type :=
  mkMetadata { Name : string; ClientPath : string; Dir : string }.

End mixin.

Module mixinprovider.

(** [config.Config], as far as [GetMixins] calls it: the mixins directory
    and the listing of a directory are answers of the environment. *)
Record Config : Type := mkConfig {
  GetMixinsDir : string * option error;
  ReadDir : string → list os.FileInfo * option error
}.

Record FileSystem : Type := NewFileSystem { Config_ : Config }.

Section GetMixins.

(** [filepath.Join] on two elements, and the [%q] verb of [fmt]. *)
Variable Join : string → string → string.
Variable Quote : string → string.

(** The loop of [GetMixins]: [files] is what remains of the listing and
    [mixins] the slice appended to. *)
Fixpoint mixinsFrom (mixinsDir : string) (files : list os.FileInfo)
    (mixins : list mixin.Metadata) : list mixin.Metadata :=
  match files with
  | [] => mixins
  | file :: rest =>
      if negb (os.IsDir file) then mixinsFrom mixinsDir rest mixins
      else
        let mixinDir := Join mixinsDir (os.Name file) in
        mixinsFrom mixinsDir rest
          (mixins ++ [mixin.mkMetadata (os.Name file)
                        (Join mixinDir (os.Name file)) mixinDir])
  end.

Definition GetMixins (p : FileSystem) : list mixin.Metadata * option error :=
  let '(mixinsDir, err) := GetMixinsDir (Config_ p) in
  match err with
  | Some e => ([], Some e)
  | None =>
      let '(files, err) := ReadDir (Config_ p) mixinsDir in
      match err with
      | Some e =>
          ([], Some (errors.Wrap e
                       ("could not list the contents of the mixins directory "
                        +:+ Quote mixinsDir)))
      | None => (mixinsFrom mixinsDir files [], None)
      end
  end.

End GetMixins.

End mixinprovider.

(** ** Definitions used to state the properties *)

(** What [Parameters] appends for one input strategy. *)
Definition sanitized (bun : cnab.ExtendedBundle) (id : string)
    (param : secrets.Strategy) : secrets.Strategy :=
  let strategy :=
    parameters.DefaultStrategy (secrets.Name param) (secrets.Value param) in
  if cnab.IsSensitiveParameter bun (secrets.Name param)
  then sanitizer.encodeSecretParam strategy id
  else strategy.

(** The [Create] call [Parameters] makes for one input strategy, if any. *)
Definition creation (bun : cnab.ExtendedBundle) (id : string)
    (param : secrets.Strategy) : option (string * string * string) :=
  if cnab.IsSensitiveParameter bun (secrets.Name param)
  then Some (secrets.SourceSecret, id +:+ secrets.Name param, secrets.Value param)
  else None.

(** The outputs that [ResolveOutputs] hands to [ResolveOutput]. *)
Definition needsResolving (bun : cnab.ExtendedBundle) (ot : claims.Output) : Prop :=
  cnab.IsOutputSensitive bun (claims.Name ot) = (true, None).

(** What [ResolveOutputs] appends for one output when nothing fails. *)
Definition resolvedOutput {S : Type} `{secrets.Store S} (w : secrets.World S)
    (bun : cnab.ExtendedBundle) (ot : claims.Output) : claims.Output :=
  let '(sensitive, err) := cnab.IsOutputSensitive bun (claims.Name ot) in
  if sanitizer.failed err || negb sensitive then ot
  else fst (sanitizer.ResolveOutput w ot).

(** The value [ResolveParameterSet] stores for a resolved parameter. *)
Definition convertedOrRaw (bun : cnab.ExtendedBundle) (name : string)
    (value : any) : any :=
  let '(paramValue, err) := cnab.ConvertParameterValue bun name value in
  if sanitizer.failed err then value else paramValue.

(** [name] is bound to [value] by the last of the maps [ms] that binds it. *)
Definition lastBinding (ms : list (gmap string any)) (name : string)
    (value : any) : Prop :=
  ∃ i m, ms !! i = Some m ∧ m !! name = Some value ∧
         ∀ j m', i < j → ms !! j = Some m' → m' !! name = None.

(** What [EncodeInternalParameterSet] leaves at the place of one parameter
    of the internal set. *)
Definition encodedParam (bun : cnab.ExtendedBundle) (id : string)
    (param : secrets.Strategy) : secrets.Strategy :=
  if cnab.IsSensitiveParameter bun (secrets.Name param)
  then secrets.mkStrategy (secrets.Name param)
         (secrets.mkSource secrets.SourceSecret (id +:+ secrets.Name param))
         (secrets.Value param)
  else param.

(** The internal set after [EncodeInternalParameterSet]. *)
Definition encodedSet (bun : cnab.ExtendedBundle) (id : string)
    (pset : parameters.ParameterSet) : parameters.ParameterSet :=
  parameters.mkParameterSet (parameters.SetName pset) (parameters.Internal pset)
    (map (encodedParam bun id) (parameters.Parameters pset)).

(** The strategy that [RawParameters] builds for one entry of the raw
    parameters, [write] being [WriteParameterToString]. *)
Definition rendered
    (write : cnab.ExtendedBundle → string → any → string * option error)
    (bun : cnab.ExtendedBundle) (entry : string * any) : secrets.Strategy :=
  parameters.DefaultStrategy (fst entry) (fst (write bun (fst entry) (snd entry))).

(** [WriteParameterToString] renders the entry without error. *)
Definition renders
    (write : cnab.ExtendedBundle → string → any → string * option error)
    (bun : cnab.ExtendedBundle) (entry : string * any) : Prop :=
  snd (write bun (fst entry) (snd entry)) = None.

(** The run [r'] has every field of [r] except, possibly, [Parameters]. *)
Definition sameButParameters (r r' : claims.Run) : Prop :=
  claims.SchemaVersion r' = claims.SchemaVersion r ∧
  claims.ID r' = claims.ID r ∧
  claims.Created r' = claims.Created r ∧
  claims.Namespace r' = claims.Namespace r ∧
  claims.Installation r' = claims.Installation r ∧
  claims.Revision r' = claims.Revision r ∧
  claims.Action r' = claims.Action r ∧
  claims.Bundle r' = claims.Bundle r ∧
  claims.BundleReference r' = claims.BundleReference r ∧
  claims.BundleDigest r' = claims.BundleDigest r ∧
  claims.ParameterOverrides r' = claims.ParameterOverrides r ∧
  claims.CredentialSets r' = claims.CredentialSets r ∧
  claims.ParameterSets r' = claims.ParameterSets r ∧
  claims.Custom r' = claims.Custom r.

(** The run [r'] has every field of [r] except, possibly,
    [ParameterSets]. *)
Definition sameButParameterSets (r r' : claims.Run) : Prop :=
  claims.SchemaVersion r' = claims.SchemaVersion r ∧
  claims.ID r' = claims.ID r ∧
  claims.Created r' = claims.Created r ∧
  claims.Namespace r' = claims.Namespace r ∧
  claims.Installation r' = claims.Installation r ∧
  claims.Revision r' = claims.Revision r ∧
  claims.Action r' = claims.Action r ∧
  claims.Bundle r' = claims.Bundle r ∧
  claims.BundleReference r' = claims.BundleReference r ∧
  claims.BundleDigest r' = claims.BundleDigest r ∧
  claims.ParameterOverrides r' = claims.ParameterOverrides r ∧
  claims.CredentialSets r' = claims.CredentialSets r ∧
  claims.Parameters r' = claims.Parameters r ∧
  claims.Custom r' = claims.Custom r.

(** The set is not flagged internal. *)
Definition notInternal (pset : parameters.ParameterSet) : Prop :=
  parameters.IsInternalParameterSet pset = false.

(** The string holds no separator [/]. *)
Fixpoint noSlash (s : string) : bool :=
  match s with
  | EmptyString => true
  | String c rest => negb (Ascii.eqb c "/"%char) && noSlash rest
  end.

(** The mixin that [GetMixins] reports for a directory of the listing. *)
Definition mixinOf (Join : string → string → string) (mixinsDir : string)
    (file : os.FileInfo) : mixin.Metadata :=
  mixin.mkMetadata (os.Name file)
    (Join (Join mixinsDir (os.Name file)) (os.Name file))
    (Join mixinsDir (os.Name file)).


(** ** A sample bundle and sample runs, used to exercise the definitions *)
Module sample.

(** A bundle that knows the actions [install] (modifying), [status]
    (stateful, non-modifying) and [dry-run] (stateless, non-modifying),
    with a sensitive parameter [password], a sensitive output [token], an
    output [broken] whose sensitivity cannot be checked, and an integer
    parameter [count]. *)
Definition bundle : cnab.ExtendedBundle :=
  cnab.mkBundle
    (λ action,
       if String.eqb action "install" then (cnab.mkAction true false, None)
       else if String.eqb action "status" then (cnab.mkAction false false, None)
       else if String.eqb action "dry-run" then (cnab.mkAction false true, None)
       else (cnab.mkAction false false, Some (errors.New "action not defined")))
    (λ name, String.eqb name "password")
    (λ name,
       if String.eqb name "token" then (true, None)
       else if String.eqb name "broken"
            then (false, Some (errors.New "output not defined"))
            else (false, None))
    (λ name value,
       if String.eqb name "count" then
         match value with
         | AnyString "1" => (AnyInt 1, None)
         | _ => (AnyNil, Some (errors.New "cannot convert to integer"))
         end
       else (value, None)).

Definition plain (name value : string) : secrets.Strategy :=
  secrets.mkStrategy name (secrets.mkSource "" "") value.

Definition userSet : parameters.ParameterSet :=
  parameters.mkParameterSet "user" false
    [plain "region" "eu"; plain "password" "hunter2"].

Definition internalSet : parameters.ParameterSet :=
  parameters.mkParameterSet "internal" true
    [plain "region" "eu"; plain "password" "hunter2"].

Definition otherSet : parameters.ParameterSet :=
  parameters.mkParameterSet "other" false [plain "password" "swordfish"].

Definition run (action : string) (psets : list parameters.ParameterSet)
  : claims.Run :=
  claims.mkRun "1.0.0" "run1" 0 "dev" "mybuns" "rev1" action bundle
    "example.com/mybuns:v1" "" ∅ [] psets ∅ AnyNil.

(** [claims.Outputs] as a plain list. *)
#[global] Instance outputs : claims.OutputsAPI (list claims.Output) :=
  {| claims.OutputsValue := λ o, o; claims.NewOutputs := λ l, l |}.

(** A store that already holds the key of the output [token] of run [run1]:
    its [Create] fails for that output. *)
Definition takenStore : secrets.World inmemory.Store :=
  secrets.mkWorld ({[ ("secret", "run1token") := "stale" ]} : inmemory.Store) [].

Definition tokenOutput : claims.Output :=
  claims.mkOutput "token" "run1" "" [Byte.x73; Byte.x33; Byte.x63; Byte.x72].

(** A provider that resolves every set to a [count] that is not a number
    and a [region]. *)
Definition service : sanitizer.Service :=
  sanitizer.NewService
    (parameters.mkProvider
       (λ _, (<["count" := AnyString "many"]> (<["region" := AnyString "eu"]> ∅),
              None))).

(** The parameter sets [{a:1, b:2}] and [{b:3, c:4}] of the merge rule. *)
Definition firstSet : parameters.ParameterSet :=
  parameters.mkParameterSet "first" false [plain "a" "1"; plain "b" "2"].

Definition secondSet : parameters.ParameterSet :=
  parameters.mkParameterSet "second" false [plain "b" "3"; plain "c" "4"].

Definition firstMap : gmap string any :=
  <["a" := AnyInt 1]> (<["b" := AnyInt 2]> ∅).

Definition secondMap : gmap string any :=
  <["b" := AnyInt 3]> (<["c" := AnyInt 4]> ∅).

Definition resolveSet (pset : parameters.ParameterSet)
    (resolver : parameters.Provider) (bun : cnab.ExtendedBundle)
  : gmap string any * option error :=
  if String.eqb (parameters.SetName pset) "first" then (firstMap, None)
  else if String.eqb (parameters.SetName pset) "second" then (secondMap, None)
  else (∅, Some (errors.New "parameter set not found")).

(** A run of the two sets of the merge rule that still holds parameters
    resolved earlier. *)
Definition staleRun : claims.Run :=
  claims.mkRun "1.0.0" "run1" 0 "dev" "mybuns" "rev1" "install" bundle
    "example.com/mybuns:v1" "" ∅ [] [firstSet; secondSet]
    (<["a" := AnyInt 0]> (<["z" := AnyInt 9]> ∅)) AnyNil.

(** A second internal set, with parameters of its own. *)
Definition laterInternalSet : parameters.ParameterSet :=
  parameters.mkParameterSet "later" true [plain "password" "swordfish"].

(** A run of an installation in a namespace. *)
Definition runIn (namespace installation : string) : claims.Run :=
  claims.mkRun "1.0.0" "run1" 0 namespace installation "rev1" "install"
    bundle "" "" ∅ [] [] ∅ AnyNil.

(** A rendering of raw values that knows strings, booleans and the
    integer 1. *)
Definition write (bun : cnab.ExtendedBundle) (name : string) (value : any)
  : string * option error :=
  match value with
  | AnyString text => (text, None)
  | AnyBool true => ("true", None)
  | AnyBool false => ("false", None)
  | AnyInt 1 => ("1", None)
  | _ => ("", Some (errors.New "cannot render the value"))
  end.

(** A mixins directory that holds two mixins and a file. *)
Definition join (dir name : string) : string := dir +:+ "/" +:+ name.

Definition home : mixinprovider.FileSystem :=
  mixinprovider.NewFileSystem
    (mixinprovider.mkConfig ("/home/me/.porter/mixins", None)
       (λ dir,
          if String.eqb dir "/home/me/.porter/mixins"
          then ([os.mkFileInfo "exec" true; os.mkFileInfo "README.md" false;
                 os.mkFileInfo "helm" true], None)
          else ([], Some (errors.New "no such directory")))).

End sample.

(** * Properties *)

(** ** [Run.ShouldRecord] *)
Section ShouldRecord.

Example ShouldRecord_install : claims.ShouldRecord (sample.run "install" []) = true.
Proof. reflexivity. Qed.

Example ShouldRecord_status : claims.ShouldRecord (sample.run "status" []) = true.
Proof. reflexivity. Qed.

Example ShouldRecord_dry_run : claims.ShouldRecord (sample.run "dry-run" []) = false.
Proof. reflexivity. Qed.

Example ShouldRecord_unknown : claims.ShouldRecord (sample.run "zombies" []) = true.
Proof. reflexivity. Qed.

(** C7. [ShouldRecord] returns false exactly when the bundle knows the run's
    action ([GetAction] returns no error) and the action is declared both
    non-modifying and stateless; in every other case, an unknown action
    included, it returns true. *)
Theorem ShouldRecord_false_iff (r : claims.Run) :
  (claims.ShouldRecord r = false ↔
     ∃ action,
       cnab.GetAction (claims.Bundle r) (claims.Action r) = (action, None) ∧
       cnab.Modifies action = false ∧ cnab.Stateless action = true) ∧
  (claims.ShouldRecord r = true ↔
     ∀ action,
       cnab.GetAction (claims.Bundle r) (claims.Action r) = (action, None) →
       cnab.Modifies action = true ∨ cnab.Stateless action = false).
Proof.
  unfold claims.ShouldRecord.
  destruct (cnab.GetAction (claims.Bundle r) (claims.Action r))
    as [[modifies stateless] [e|]]; simpl.
  - split; split.
    + discriminate.
    + intros (action & Hact & _); discriminate.
    + intros _ action Hact; discriminate.
    + reflexivity.
  - split; split.
    + intros Hrec. exists (cnab.mkAction modifies stateless).
      destruct modifies, stateless; simpl in *; try discriminate; auto.
    + intros (action & Hact & Hm & Hs). injection Hact as <-.
      simpl in *; subst; reflexivity.
    + intros Hrec action Hact. injection Hact as <-. simpl.
      destruct modifies, stateless; simpl in *; try discriminate; auto.
    + intros Hall.
      destruct (Hall _ eq_refl) as [Hm | Hs]; simpl in *; subst;
        [reflexivity | apply orb_true_r].
Qed.

End ShouldRecord.

(** ** [Run.EncodeInternalParameterSet] *)
Section EncodeInternalParameterSet.

Lemma encodeInternalFrom_none (r : claims.Run) (psets : list parameters.ParameterSet) :
  ∀ i,
    Forall (λ pset, parameters.IsInternalParameterSet pset = false) psets →
    claims.encodeInternalFrom r i psets = (r, (parameters.zero, false)).
Proof.
  induction psets as [|pset rest IH]; intros i Hall; simpl.
  - reflexivity.
  - inversion Hall as [|? ? Hpset Hrest]; subst.
    rewrite Hpset; simpl. now apply IH.
Qed.

(** With an internal set at index 1, its sensitive parameter is encoded, in
    the returned set and in the run. *)
Example EncodeInternalParameterSet_internal :
  claims.EncodeInternalParameterSet
    (sample.run "install" [sample.userSet; sample.internalSet])
  = (sample.run "install"
       [sample.userSet;
        parameters.mkParameterSet "internal" true
          [sample.plain "region" "eu";
           secrets.mkStrategy "password"
             (secrets.mkSource "secret" "run1password") "hunter2"]],
     (parameters.mkParameterSet "internal" true
        [sample.plain "region" "eu";
         secrets.mkStrategy "password"
           (secrets.mkSource "secret" "run1password") "hunter2"],
      true)).
Proof. reflexivity. Qed.

(** C10. On a run none of whose parameter sets is flagged internal,
    [EncodeInternalParameterSet] returns the empty parameter set with the
    flag false, and the run, hence every strategy of every attached
    parameter set and its source fields, is left as it was. *)
Theorem EncodeInternalParameterSet_no_internal (r : claims.Run) :
  Forall (λ pset, parameters.IsInternalParameterSet pset = false)
    (claims.ParameterSets r) →
  let '(r', (pset, found)) := claims.EncodeInternalParameterSet r in
  pset = parameters.zero ∧ found = false ∧ r' = r ∧
  map parameters.Parameters (claims.ParameterSets r')
  = map parameters.Parameters (claims.ParameterSets r).
Proof.
  intros Hall. unfold claims.EncodeInternalParameterSet.
  rewrite (encodeInternalFrom_none r _ 0 Hall). repeat split.
Qed.

(** A run with two user-authored sets holding a sensitive parameter. *)
Lemma EncodeInternalParameterSet_no_internal_witness :
  let r := sample.run "install" [sample.userSet; sample.otherSet] in
  Forall (λ pset, parameters.IsInternalParameterSet pset = false)
    (claims.ParameterSets r) ∧
  claims.EncodeInternalParameterSet r = (r, (parameters.zero, false)).
Proof.
  intros r.
  assert (Hall : Forall (λ pset, parameters.IsInternalParameterSet pset = false)
                   (claims.ParameterSets r))
    by (repeat constructor).
  split; [exact Hall|].
  pose proof (EncodeInternalParameterSet_no_internal r Hall) as Hthm.
  destruct (claims.EncodeInternalParameterSet r) as [r' [pset found]].
  destruct Hthm as (-> & -> & -> & _). reflexivity.
Defined.

End EncodeInternalParameterSet.

(** ** The secret store contract *)
Section StoreContract.

Context {S : Type} `{secrets.StoreContract S}.

(** A successful [Create] keeps every plaintext the store already resolves. *)
Lemma create_preserves (st st' : S) (k v p k1 v1 p1 : string) :
  secrets.Create st k v p = (st', None) →
  secrets.Resolve st k1 v1 = (p1, None) →
  secrets.Resolve st' k1 v1 = (p1, None).
Proof.
  intros Hcreate Hres.
  destruct (decide ((k1, v1) = (k, v))) as [Heq | Hne].
  - injection Heq as -> ->.
    rewrite (secrets.create_keeps _ _ _ _ _ _ Hres Hcreate) in Hcreate.
    exact (secrets.resolve_created _ _ _ _ _ Hcreate).
  - rewrite (secrets.resolve_other _ _ _ _ _ _ _ Hcreate Hne). exact Hres.
Qed.

Lemma callCreate_ok (w w' : secrets.World S) (k v p : string) :
  secrets.callCreate w k v p = (w', None) →
  secrets.Create (secrets.state w) k v p = (secrets.state w', None) ∧
  secrets.created w' = secrets.created w ++ [(k, v, p)].
Proof.
  unfold secrets.callCreate.
  destruct (secrets.Create (secrets.state w) k v p) as [st' err].
  intros Heq; injection Heq as <- ->. split; reflexivity.
Qed.

End StoreContract.

(** The in-memory store honours the contract. *)
#[global] Instance inmemory_contract : secrets.StoreContract inmemory.Store.
Proof.
  split; simpl; unfold inmemory.Create, inmemory.Resolve, inmemory.Store.
  - intros st st' k v p. destruct (st !! (k, v)) eqn:Hst; [discriminate|].
    intros Heq; injection Heq as <-. now rewrite lookup_insert_eq.
  - intros st st' k v p k' v'. destruct (st !! (k, v)) eqn:Hst; [discriminate|].
    intros Heq Hne; injection Heq as <-.
    rewrite lookup_insert_ne by congruence. reflexivity.
  - intros st st' k v p p0. destruct (st !! (k, v)) eqn:Hst; discriminate.
Qed.

(** ** [Service.Parameters] *)
Section Parameters.

Context {S : Type} `{secrets.Store S}.

Lemma parametersFrom_ok (bun : cnab.ExtendedBundle) (id : string)
    (params : list secrets.Strategy) :
  ∀ (w w' : secrets.World S) (acc result : list secrets.Strategy),
    sanitizer.parametersFrom w params bun id acc = (w', (result, None)) →
    result = acc ++ map (sanitized bun id) params ∧
    secrets.created w' = secrets.created w ++ omap (creation bun id) params.
Proof.
  induction params as [|param rest IH]; intros w w' acc result; simpl.
  - rewrite !app_nil_r. destruct acc; simpl; intros Heq; injection Heq as <- <-;
      split; reflexivity.
  - unfold sanitized at 1, creation at 1.
    destruct (cnab.IsSensitiveParameter bun (secrets.Name param)); simpl.
    + destruct (secrets.callCreate w secrets.SourceSecret
                  (id +:+ secrets.Name param) (secrets.Value param))
        as [w1 [e|]] eqn:Hcreate; [discriminate|].
      intros Hrest. apply IH in Hrest as [-> ->].
      apply callCreate_ok in Hcreate as [_ ->].
      rewrite <- !app_assoc. split; reflexivity.
    + intros Hrest. apply IH in Hrest as [-> ->].
      rewrite <- !app_assoc. split; reflexivity.
Qed.

Lemma Parameters_ok (bun : cnab.ExtendedBundle) (id : string)
    (params : list secrets.Strategy) (w w' : secrets.World S)
    (result : list secrets.Strategy) :
  sanitizer.Parameters w params bun id = (w', (result, None)) →
  result = map (sanitized bun id) params ∧
  secrets.created w' = secrets.created w ++ omap (creation bun id) params.
Proof. intros Hok. now apply parametersFrom_ok in Hok. Qed.

Context `{!secrets.StoreContract S}.

Lemma parametersFrom_store (bun : cnab.ExtendedBundle) (id : string)
    (params : list secrets.Strategy) :
  ∀ (w w' : secrets.World S) (acc result : list secrets.Strategy),
    sanitizer.parametersFrom w params bun id acc = (w', (result, None)) →
    (∀ k v p, secrets.callResolve w k v = (p, None) →
              secrets.callResolve w' k v = (p, None)) ∧
    (∀ param, param ∈ params →
       cnab.IsSensitiveParameter bun (secrets.Name param) = true →
       secrets.callResolve w' secrets.SourceSecret (id +:+ secrets.Name param)
       = (secrets.Value param, None)).
Proof.
  unfold secrets.callResolve.
  induction params as [|param rest IH]; intros w w' acc result; simpl.
  - destruct (decide _); intros Heq; injection Heq as <- _;
      (split; [auto | intros ? Hin; inversion Hin]).
  - destruct (cnab.IsSensitiveParameter bun (secrets.Name param)) eqn:Hsens.
    + destruct (secrets.callCreate w _ _ _) as [w1 [e|]] eqn:Hcreate;
        [discriminate|].
      simpl in Hcreate. apply callCreate_ok in Hcreate as [Hcreate _].
      intros Hrest. apply IH in Hrest as [Hmono Hrest].
      split.
      * intros k v p Hres. apply Hmono. eapply create_preserves; eauto.
      * intros param' Hin Hsens'. apply elem_of_cons in Hin as [-> | Hin].
        -- apply Hmono. eapply secrets.resolve_created; eauto.
        -- now apply Hrest.
    + intros Hrest. apply IH in Hrest as [Hmono Hrest].
      split; [exact Hmono|].
      intros param' Hin Hsens'. apply elem_of_cons in Hin as [-> | Hin].
      * congruence.
      * now apply Hrest.
Qed.

End Parameters.

Section ParametersProperties.

Context {S : Type} `{secrets.StoreContract S}.

Lemma sanitized_name_value (bun : cnab.ExtendedBundle) (id : string)
    (param : secrets.Strategy) :
  secrets.Name (sanitized bun id param) = secrets.Name param ∧
  secrets.Value (sanitized bun id param) = secrets.Value param.
Proof.
  unfold sanitized.
  destruct (cnab.IsSensitiveParameter bun (secrets.Name param)); split; reflexivity.
Qed.

(** C1. Over a secret store that honours its contract, when [Parameters]
    succeeds, the strategy returned at the position of a sensitive parameter
    has [source.key] equal to the secret marker and [source.value] equal to
    [runID+name], and the secret store resolves the key pair (secret marker,
    [runID+name]) to the parameter's plaintext. *)
Theorem Parameters_sensitive (w w' : secrets.World S)
    (params result : list secrets.Strategy) (bun : cnab.ExtendedBundle)
    (id : string) :
  sanitizer.Parameters w params bun id = (w', (result, None)) →
  ∀ (i : nat) (param : secrets.Strategy),
    params !! i = Some param →
    cnab.IsSensitiveParameter bun (secrets.Name param) = true →
    ∃ strategy,
      result !! i = Some strategy ∧
      secrets.Name strategy = secrets.Name param ∧
      secrets.Key (secrets.Source_ strategy) = secrets.SourceSecret ∧
      secrets.SourceValue (secrets.Source_ strategy) = id +:+ secrets.Name param ∧
      secrets.callResolve w' secrets.SourceSecret (id +:+ secrets.Name param)
      = (secrets.Value param, None).
Proof.
  intros Hok i param Hi Hsens.
  destruct (Parameters_ok _ _ _ _ _ _ Hok) as [-> _].
  destruct (parametersFrom_store _ _ _ _ _ _ _ Hok) as [_ Hstore].
  exists (sanitized bun id param). split.
  - now rewrite list_lookup_fmap, Hi.
  - unfold sanitized. rewrite Hsens. simpl. repeat split.
    apply Hstore; [|exact Hsens]. eapply list_elem_of_lookup_2; eauto.
Qed.

End ParametersProperties.

(** An empty input is a no-op. *)
Example Parameters_empty :
  sanitizer.Parameters inmemory.empty [] sample.bundle "run1"
  = (inmemory.empty, ([], None)).
Proof. reflexivity. Qed.

(** The in-memory store rejects the second [Create] under one key. *)
Example Parameters_duplicate_name :
  snd (sanitizer.Parameters inmemory.empty
         [sample.plain "password" "hunter2"; sample.plain "password" "swordfish"]
         sample.bundle "run1")
  = ([], Some (errors.Wrap (errors.New "secret already exists")
                 "failed to save sensitive param to secrete store")).
Proof. vm_compute. reflexivity. Qed.

Lemma Parameters_sensitive_witness :
  let params := [sample.plain "region" "eu"; sample.plain "password" "hunter2"] in
  ∃ w' result strategy,
    sanitizer.Parameters inmemory.empty params sample.bundle "run1"
    = (w', (result, None)) ∧
    result !! 1 = Some strategy ∧
    secrets.Source_ strategy = secrets.mkSource "secret" "run1password" ∧
    secrets.callResolve w' "secret" "run1password" = ("hunter2", None).
Proof.
  intros params.
  pose (out := sanitizer.Parameters inmemory.empty params sample.bundle "run1").
  assert (Hok : sanitizer.Parameters inmemory.empty params sample.bundle "run1"
                = (fst out, (fst (snd out), None))) by (vm_compute; reflexivity).
  destruct (Parameters_sensitive _ _ _ _ _ _ Hok 1
              (sample.plain "password" "hunter2") eq_refl eq_refl)
    as (strategy & Hres & Hname & Hkey & Hval & Hstore).
  exists (fst out), (fst (snd out)), strategy.
  split; [exact Hok|]. split; [exact Hres|]. split; [|exact Hstore].
  destruct strategy as [name [key value] plaintext]. simpl in *. now subst.
Defined.

Section ParametersFrame.

Context {S : Type} `{secrets.Store S}.

(** C2. The encoded strategy that [Parameters] returns for a sensitive
    parameter still carries the plaintext in its [Value] field:
    [encodeSecretParam] sets the two source fields and keeps [Value], whereas
    [encodeOutput] empties the output's [Value]. *)
Theorem encodeSecretParam_keeps_plaintext :
  (∀ (param : secrets.Strategy) (id : string),
     secrets.Value (sanitizer.encodeSecretParam param id) = secrets.Value param ∧
     secrets.Source_ (sanitizer.encodeSecretParam param id)
     = secrets.mkSource secrets.SourceSecret (id +:+ secrets.Name param)) ∧
  (∀ output : claims.Output,
     claims.Value (sanitizer.encodeOutput output) = []) ∧
  (∀ (w w' : secrets.World S) (params result : list secrets.Strategy)
     (bun : cnab.ExtendedBundle) (id : string),
     sanitizer.Parameters w params bun id = (w', (result, None)) →
     ∀ (i : nat) (param : secrets.Strategy),
       params !! i = Some param →
       cnab.IsSensitiveParameter bun (secrets.Name param) = true →
       ∃ strategy,
         result !! i = Some strategy ∧
         secrets.Key (secrets.Source_ strategy) = secrets.SourceSecret ∧
         secrets.Value strategy = secrets.Value param).
Proof.
  split; [|split].
  - intros param id. split; reflexivity.
  - reflexivity.
  - intros w w' params result bun id Hok i param Hi Hsens.
    destruct (Parameters_ok _ _ _ _ _ _ Hok) as [-> _].
    exists (sanitized bun id param). split.
    + now rewrite list_lookup_fmap, Hi.
    + unfold sanitized. rewrite Hsens. split; reflexivity.
Qed.

(** C4, as the code has it. [Parameters] rebuilds every strategy from its
    name and value: a single non-sensitive strategy comes back as
    [DefaultStrategy name value], hence unchanged when it already was in
    that form, with no error and with the store and its log of [Create]
    calls untouched; and whenever [Parameters] succeeds, the output has the
    length of the input and the strategy at each position carries the name
    and the value of the input strategy at that position. *)
Theorem Parameters_non_sensitive_and_order :
  (∀ (w : secrets.World S) (strategy : secrets.Strategy)
     (bun : cnab.ExtendedBundle) (id : string),
     cnab.IsSensitiveParameter bun (secrets.Name strategy) = false →
     sanitizer.Parameters w [strategy] bun id
     = (w, ([parameters.DefaultStrategy (secrets.Name strategy)
               (secrets.Value strategy)], None)) ∧
     (strategy = parameters.DefaultStrategy (secrets.Name strategy)
                   (secrets.Value strategy) →
      sanitizer.Parameters w [strategy] bun id = (w, ([strategy], None)))) ∧
  (∀ (w w' : secrets.World S) (params result : list secrets.Strategy)
     (bun : cnab.ExtendedBundle) (id : string),
     sanitizer.Parameters w params bun id = (w', (result, None)) →
     List.length result = List.length params ∧
     ∀ (i : nat) (param : secrets.Strategy),
       params !! i = Some param →
       ∃ strategy,
         result !! i = Some strategy ∧
         secrets.Name strategy = secrets.Name param ∧
         secrets.Value strategy = secrets.Value param).
Proof.
  split.
  - intros w strategy bun id Hplain.
    unfold sanitizer.Parameters; simpl. rewrite Hplain; simpl.
    split; [reflexivity|].
    intros Hdefault. now rewrite <- Hdefault.
  - intros w w' params result bun id Hok.
    destruct (Parameters_ok _ _ _ _ _ _ Hok) as [-> _].
    split; [apply length_map|].
    intros i param Hi. exists (sanitized bun id param). split.
    + now rewrite list_lookup_fmap, Hi.
    + apply sanitized_name_value.
Qed.

End ParametersFrame.

Lemma encodeSecretParam_keeps_plaintext_witness :
  let params := [sample.plain "region" "eu"; sample.plain "password" "hunter2"] in
  ∃ w' result strategy,
    sanitizer.Parameters inmemory.empty params sample.bundle "run1"
    = (w', (result, None)) ∧
    result !! 1 = Some strategy ∧
    secrets.Key (secrets.Source_ strategy) = "secret" ∧
    secrets.Value strategy = "hunter2".
Proof.
  intros params.
  pose (out := sanitizer.Parameters inmemory.empty params sample.bundle "run1").
  assert (Hok : sanitizer.Parameters inmemory.empty params sample.bundle "run1"
                = (fst out, (fst (snd out), None))) by (vm_compute; reflexivity).
  destruct (proj2 (proj2 encodeSecretParam_keeps_plaintext) _ _ _ _ _ _ Hok 1
              (sample.plain "password" "hunter2") eq_refl eq_refl)
    as (strategy & Hres & Hkey & Hval).
  exists (fst out), (fst (snd out)), strategy. auto.
Defined.

(** A non-sensitive strategy that carries an indirection is not returned
    unchanged: [Parameters] resets its source. *)
Lemma Parameters_non_sensitive_rebuilt :
  let strategy :=
    secrets.mkStrategy "region" (secrets.mkSource "secret" "run0region") "eu" in
  cnab.IsSensitiveParameter sample.bundle (secrets.Name strategy) = false ∧
  sanitizer.Parameters inmemory.empty [strategy] sample.bundle "run1"
  = (inmemory.empty, ([sample.plain "region" "eu"], None)) ∧
  ¬ ∃ w' err,
      sanitizer.Parameters inmemory.empty [strategy] sample.bundle "run1"
      = (w', ([strategy], err)).
Proof.
  intros strategy. split; [reflexivity|]. split; [reflexivity|].
  intros (w' & err & Heq). vm_compute in Heq. discriminate Heq.
Qed.

Lemma Parameters_non_sensitive_and_order_witness :
  sanitizer.Parameters inmemory.empty [sample.plain "region" "eu"]
    sample.bundle "run1"
  = (inmemory.empty, ([sample.plain "region" "eu"], None)) ∧
  ∃ w' result strategy,
    sanitizer.Parameters inmemory.empty
      [sample.plain "password" "hunter2"; sample.plain "region" "eu"]
      sample.bundle "run1" = (w', (result, None)) ∧
    List.length result = 2 ∧
    result !! 1 = Some strategy ∧
    secrets.Name strategy = "region" ∧ secrets.Value strategy = "eu".
Proof.
  split.
  - exact (proj2 (proj1 Parameters_non_sensitive_and_order inmemory.empty
                    (sample.plain "region" "eu") sample.bundle "run1" eq_refl)
             eq_refl).
  - pose (out := sanitizer.Parameters inmemory.empty
                   [sample.plain "password" "hunter2"; sample.plain "region" "eu"]
                   sample.bundle "run1").
    assert (Hok : sanitizer.Parameters inmemory.empty
                    [sample.plain "password" "hunter2"; sample.plain "region" "eu"]
                    sample.bundle "run1"
                  = (fst out, (fst (snd out), None))) by (vm_compute; reflexivity).
    destruct (proj2 Parameters_non_sensitive_and_order _ _ _ _ _ _ Hok)
      as [Hlen Hpos].
    destruct (Hpos 1 (sample.plain "region" "eu") eq_refl)
      as (strategy & Hres & Hname & Hval).
    exists (fst out), (fst (snd out)), strategy. auto.
Defined.

(** ** [Service.Output] and [Service.ResolveOutput] *)
Section Output.

Context {S : Type} `{secrets.Store S}.

(** C6. For a sensitive output, when the store's [Create] fails, [Output]
    returns the already encoded output, its key set to [runID+name] and its
    value emptied, together with the store's error. When the output is not
    sensitive, or the sensitivity check itself fails, [Output] returns the
    output as it was, together with the error of the check, if any, and
    leaves the store alone. *)
Theorem Output_partial_success (w : secrets.World S) (output : claims.Output)
    (bun : cnab.ExtendedBundle) :
  (∀ (w' : secrets.World S) (e : error),
     cnab.IsOutputSensitive bun (claims.Name output) = (true, None) →
     secrets.callCreate w secrets.SourceSecret
       (claims.RunID output +:+ claims.Name output)
       (string_of_list_byte (claims.Value output)) = (w', Some e) →
     sanitizer.Output w output bun
     = (w', (claims.mkOutput (claims.Name output) (claims.RunID output)
               (claims.RunID output +:+ claims.Name output) [], Some e))) ∧
  (∀ (sensitive : bool) (err : option error),
     cnab.IsOutputSensitive bun (claims.Name output) = (sensitive, err) →
     sensitive = false ∨ err ≠ None →
     sanitizer.Output w output bun = (w, (output, err))).
Proof.
  unfold sanitizer.Output. split.
  - intros w' e Hsens Hcreate. rewrite Hsens. simpl.
    unfold sanitizer.encodeOutput. simpl. now rewrite Hcreate.
  - intros sensitive err Hsens Hpass. rewrite Hsens.
    destruct err as [e|]; simpl; [reflexivity|].
    destruct Hpass as [-> | Herr]; [reflexivity | congruence].
Qed.

Context `{!secrets.StoreContract S}.

(** C3. Over a secret store that honours its contract, for a sensitive
    output with a non-empty payload, when [Output] succeeds, [ResolveOutput]
    on the sanitized output, against the store that [Output] left, succeeds
    and gives back the original bytes. (Lists do not tell a nil slice from an
    empty one, which is why the payload is kept non-empty here.) *)
Theorem Output_ResolveOutput_roundtrip (w w' : secrets.World S)
    (output sanitized : claims.Output) (bun : cnab.ExtendedBundle) :
  claims.Value output ≠ [] →
  cnab.IsOutputSensitive bun (claims.Name output) = (true, None) →
  sanitizer.Output w output bun = (w', (sanitized, None)) →
  claims.Value sanitized = [] ∧
  ∃ resolved,
    sanitizer.ResolveOutput w' sanitized = (resolved, None) ∧
    claims.Value resolved = claims.Value output ∧
    claims.Name resolved = claims.Name output ∧
    claims.RunID resolved = claims.RunID output.
Proof.
  intros _ Hsens. unfold sanitizer.Output. rewrite Hsens. simpl.
  destruct (secrets.callCreate w _ _ _) as [w1 [e|]] eqn:Hcreate;
    [discriminate|].
  intros Heq; injection Heq as <- <-.
  apply callCreate_ok in Hcreate as [Hcreate _].
  split; [reflexivity|].
  unfold sanitizer.ResolveOutput, secrets.callResolve. simpl.
  rewrite (secrets.resolve_created _ _ _ _ _ Hcreate).
  eexists; split; [reflexivity|]. simpl.
  rewrite list_byte_of_string_of_list_byte. repeat split.
Qed.

End Output.

Lemma Output_partial_success_witness :
  (∃ w' e,
     sanitizer.Output sample.takenStore sample.tokenOutput sample.bundle
     = (w', (claims.mkOutput "token" "run1" "run1token" [], Some e))) ∧
  sanitizer.Output inmemory.empty
    (claims.mkOutput "broken" "run1" "" [Byte.x00]) sample.bundle
  = (inmemory.empty, (claims.mkOutput "broken" "run1" "" [Byte.x00],
                      Some (errors.New "output not defined"))).
Proof.
  split.
  - eexists _, _.
    apply (proj1 (Output_partial_success sample.takenStore sample.tokenOutput sample.bundle));
      vm_compute; reflexivity.
  - apply (proj2 (Output_partial_success inmemory.empty
                    (claims.mkOutput "broken" "run1" "" [Byte.x00]) sample.bundle)
             false (Some (errors.New "output not defined")));
      [reflexivity | right; discriminate].
Defined.

Lemma Output_ResolveOutput_roundtrip_witness :
  ∃ w' sanitized resolved,
    sanitizer.Output inmemory.empty sample.tokenOutput sample.bundle
    = (w', (sanitized, None)) ∧
    claims.Value sanitized = [] ∧
    sanitizer.ResolveOutput w' sanitized = (resolved, None) ∧
    claims.Value resolved = [Byte.x73; Byte.x33; Byte.x63; Byte.x72].
Proof.
  pose (out := sanitizer.Output inmemory.empty sample.tokenOutput sample.bundle).
  assert (Hok : sanitizer.Output inmemory.empty sample.tokenOutput sample.bundle
                = (fst out, (fst (snd out), None))) by (vm_compute; reflexivity).
  destruct (Output_ResolveOutput_roundtrip inmemory.empty (fst out) sample.tokenOutput
              (fst (snd out)) sample.bundle
              (ltac:(discriminate) : claims.Value sample.tokenOutput ≠ [])
              eq_refl Hok)
    as (Hclear & resolved & Hres & Hval & _).
  exists (fst out), (fst (snd out)), resolved. auto.
Defined.

(** ** [Service.ResolveOutputs] *)
Section ResolveOutputs.

Context {S : Type} `{secrets.Store S}.
Context {Outputs : Type} `{claims.OutputsAPI Outputs}.

Variable w : secrets.World S.
Variable bun : cnab.ExtendedBundle.

Lemma passes_or_needs (ot : claims.Output) :
  ∀ sensitive err,
    cnab.IsOutputSensitive bun (claims.Name ot) = (sensitive, err) →
    (sanitizer.failed err || negb sensitive = true ∧ ¬ needsResolving bun ot) ∨
    (sanitizer.failed err || negb sensitive = false ∧ needsResolving bun ot).
Proof.
  unfold needsResolving. intros sensitive err ->.
  destruct err as [e|], sensitive; simpl; auto;
    left; split; auto; discriminate.
Qed.

Lemma ResolveOutput_error (ot : claims.Output) :
  snd (sanitizer.ResolveOutput w ot)
  = snd (secrets.callResolve w secrets.SourceSecret (claims.Key ot)).
Proof.
  unfold sanitizer.ResolveOutput.
  destruct (secrets.callResolve _ _ _) as [p [e|]]; reflexivity.
Qed.

Lemma resolveOutputsFrom_ok (o : Outputs) (ots : list claims.Output) :
  ∀ acc,
    Forall (λ ot, needsResolving bun ot →
                  snd (secrets.callResolve w secrets.SourceSecret (claims.Key ot))
                  = None) ots →
    sanitizer.resolveOutputsFrom w o ots bun acc
    = (claims.NewOutputs (acc ++ map (resolvedOutput w bun) ots), None).
Proof.
  induction ots as [|ot rest IH]; intros acc Hall; simpl.
  - now rewrite app_nil_r.
  - inversion Hall as [|? ? Hot Hrest]; subst.
    unfold resolvedOutput at 1.
    destruct (cnab.IsOutputSensitive bun (claims.Name ot))
      as [sensitive err] eqn:Hsens.
    destruct (passes_or_needs ot _ _ Hsens) as [[-> _] | [-> Hneeds]].
    + rewrite (IH _ Hrest), <- app_assoc. reflexivity.
    + specialize (Hot Hneeds). rewrite <- ResolveOutput_error in Hot.
      destruct (sanitizer.ResolveOutput w ot) as [r err'].
      simpl in Hot; subst err'.
      rewrite (IH _ Hrest), <- app_assoc. reflexivity.
Qed.

Lemma resolveOutputsFrom_fail (o : Outputs) (ots : list claims.Output) :
  ∀ acc,
    Exists (λ ot, needsResolving bun ot ∧
                  snd (secrets.callResolve w secrets.SourceSecret (claims.Key ot))
                  ≠ None) ots →
    ∃ ot e,
      ot ∈ ots ∧ needsResolving bun ot ∧
      snd (secrets.callResolve w secrets.SourceSecret (claims.Key ot)) = Some e ∧
      sanitizer.resolveOutputsFrom w o ots bun acc
      = (o, Some (errors.WithMessagef e
                    "failed to resolve output %q using key %q"
                    [claims.Name ot; claims.Key ot])).
Proof.
  induction ots as [|ot rest IH]; intros acc Hex.
  - inversion Hex.
  - assert (Hlater : Exists (λ ot, needsResolving bun ot ∧
               snd (secrets.callResolve w secrets.SourceSecret (claims.Key ot))
               ≠ None) rest →
             ∀ acc', ∃ ot' e, ot' ∈ ot :: rest ∧ needsResolving bun ot' ∧
               snd (secrets.callResolve w secrets.SourceSecret (claims.Key ot'))
               = Some e ∧
               sanitizer.resolveOutputsFrom w o rest bun acc'
               = (o, Some (errors.WithMessagef e
                             "failed to resolve output %q using key %q"
                             [claims.Name ot'; claims.Key ot']))).
    { intros Hrest acc'. destruct (IH acc' Hrest) as (ot' & e & Hin & Hrest').
      exists ot', e. split; [now apply elem_of_cons; right | exact Hrest']. }
    simpl.
    destruct (cnab.IsOutputSensitive bun (claims.Name ot))
      as [sensitive err] eqn:Hsens.
    destruct (passes_or_needs ot _ _ Hsens) as [[-> Hpass] | [-> Hneeds]].
    + apply Hlater. inversion Hex as [? ? [Hn _]|]; subst; [contradiction | assumption].
    + pose proof (ResolveOutput_error ot) as Herr.
      destruct (sanitizer.ResolveOutput w ot) as [r [e|]]; simpl in Herr.
      * exists ot, e. split; [apply elem_of_cons; now left|]. auto.
      * apply Hlater.
        inversion Hex as [? ? [_ Hf]|]; subst; [congruence | assumption].
Qed.

(** C5. If resolving some sensitive output of the batch fails,
    [ResolveOutputs] returns the batch it was given, and no partly resolved
    collection, together with the store's error wrapped in a message that
    carries the name and the key of a failing output. Otherwise it succeeds
    with a collection built from as many outputs as the batch has, where
    every output that is not sensitive, or whose sensitivity check fails,
    stands unchanged at its position: such outputs never fail the batch. *)
Theorem ResolveOutputs_all_or_nothing (o : Outputs) :
  ((∃ ot, ot ∈ claims.OutputsValue o ∧ needsResolving bun ot ∧
          snd (sanitizer.ResolveOutput w ot) ≠ None) →
   ∃ ot e,
     ot ∈ claims.OutputsValue o ∧ needsResolving bun ot ∧
     snd (sanitizer.ResolveOutput w ot) = Some e ∧
     sanitizer.ResolveOutputs w o bun
     = (o, Some (errors.WithMessagef e
                   "failed to resolve output %q using key %q"
                   [claims.Name ot; claims.Key ot]))) ∧
  ((∀ ot, ot ∈ claims.OutputsValue o → needsResolving bun ot →
          snd (sanitizer.ResolveOutput w ot) = None) →
   ∃ resolved,
     sanitizer.ResolveOutputs w o bun = (claims.NewOutputs resolved, None) ∧
     List.length resolved = List.length (claims.OutputsValue o) ∧
     ∀ i ot, claims.OutputsValue o !! i = Some ot →
       (¬ needsResolving bun ot → resolved !! i = Some ot) ∧
       (needsResolving bun ot →
        resolved !! i = Some (fst (sanitizer.ResolveOutput w ot)))).
Proof.
  unfold sanitizer.ResolveOutputs. split.
  - intros (ot & Hin & Hneeds & Hfail).
    destruct (resolveOutputsFrom_fail o (claims.OutputsValue o) [])
      as (ot' & e & Hin' & Hneeds' & Herr & Hres).
    { apply Exists_exists. exists ot. rewrite <- ResolveOutput_error. auto. }
    exists ot', e. rewrite ResolveOutput_error. auto.
  - intros Hall. exists (map (resolvedOutput w bun) (claims.OutputsValue o)).
    split; [|split].
    + apply (resolveOutputsFrom_ok o _ []).
      apply Forall_forall. intros ot Hin Hneeds.
      rewrite <- ResolveOutput_error. now apply Hall.
    + apply length_map.
    + intros i ot Hi. rewrite list_lookup_fmap, Hi. simpl.
      unfold resolvedOutput.
      destruct (cnab.IsOutputSensitive bun (claims.Name ot))
        as [sensitive err] eqn:Hsens.
      destruct (passes_or_needs ot _ _ Hsens) as [[-> Hpass] | [-> Hneeds]];
        split; intros; try reflexivity; contradiction.
Qed.

End ResolveOutputs.

Lemma ResolveOutputs_all_or_nothing_witness :
  let batch :=
    [claims.mkOutput "log" "run1" "" [Byte.x6f; Byte.x6b];
     claims.mkOutput "token" "run1" "run1token" []] in
  (∃ ot e,
     ot ∈ batch ∧
     sanitizer.ResolveOutputs inmemory.empty batch sample.bundle
     = (batch, Some (errors.WithMessagef e
                       "failed to resolve output %q using key %q"
                       [claims.Name ot; claims.Key ot]))) ∧
  (∃ resolved,
     sanitizer.ResolveOutputs sample.takenStore batch sample.bundle = (resolved, None) ∧
     resolved !! 0 = Some (claims.mkOutput "log" "run1" "" [Byte.x6f; Byte.x6b])).
Proof.
  intros batch. split.
  - assert (Hfail : ∃ ot, ot ∈ batch ∧ needsResolving sample.bundle ot ∧
                      snd (sanitizer.ResolveOutput inmemory.empty ot) ≠ None).
    { exists (claims.mkOutput "token" "run1" "run1token" []).
      split; [right; left|]. split; [reflexivity|].
      intros Hnone. vm_compute in Hnone. discriminate Hnone. }
    destruct (proj1 (ResolveOutputs_all_or_nothing (H0 := sample.outputs)
                       inmemory.empty sample.bundle
                       batch) Hfail)
      as (ot & e & Hin & _ & _ & Hres).
    exists ot, e. split; [exact Hin | exact Hres].
  - assert (Hall : ∀ ot, ot ∈ batch → needsResolving sample.bundle ot →
                     snd (sanitizer.ResolveOutput sample.takenStore ot) = None).
    { intros ot Hin Hneeds.
      apply elem_of_cons in Hin as [-> | Hin];
        [vm_compute in Hneeds; discriminate Hneeds|].
      apply elem_of_cons in Hin as [-> | Hin]; [reflexivity|].
      inversion Hin. }
    destruct (proj2 (ResolveOutputs_all_or_nothing (H0 := sample.outputs)
                       sample.takenStore sample.bundle
                       batch) Hall)
      as (resolved & Hres & _ & Hpos).
    exists resolved. split; [exact Hres|].
    apply (proj1 (Hpos 0 (claims.mkOutput "log" "run1" "" [Byte.x6f; Byte.x6b])
                    eq_refl)).
    intros Hneeds. vm_compute in Hneeds. discriminate Hneeds.
Defined.

(** ** Loops over Go maps *)
Section MapLoops.

(** Ranging over [params] and storing every entry into [resolved] gives
    [params]'s value where it has one and [resolved]'s elsewhere, whatever
    the iteration order. *)
Lemma mergeInto_lookup (params resolved : gmap string any) (key : string) :
  claims.mergeInto params resolved !! key
  = match params !! key with
    | Some value => Some value
    | None => resolved !! key
    end.
Proof.
  unfold claims.mergeInto. revert key.
  apply (map_fold_weak_ind
           (λ acc (m : gmap string any), ∀ key,
              acc !! key = match m !! key with
                           | Some value => Some value
                           | None => resolved !! key
                           end)).
  - intros key. now rewrite lookup_empty.
  - intros i x m acc Hfresh IH key.
    destruct (decide (i = key)) as [-> | Hne].
    + now rewrite !lookup_insert_eq.
    + rewrite !lookup_insert_ne by exact Hne. apply IH.
Qed.

Lemma convertInto_lookup (bun : cnab.ExtendedBundle) (params : gmap string any)
    (name : string) :
  map_fold (sanitizer.convertInto bun) ∅ params !! name
  = convertedOrRaw bun name <$> params !! name.
Proof.
  revert name.
  apply (map_fold_weak_ind
           (λ acc (m : gmap string any), ∀ name,
              acc !! name = convertedOrRaw bun name <$> m !! name)).
  - intros name. now rewrite !lookup_empty.
  - intros i x m acc Hfresh IH name.
    unfold sanitizer.convertInto.
    destruct (cnab.ConvertParameterValue bun i x) as [paramValue err] eqn:Hconv.
    destruct (decide (i = name)) as [-> | Hne].
    + rewrite !lookup_insert_eq. simpl. unfold convertedOrRaw.
      now rewrite Hconv.
    + rewrite !lookup_insert_ne by exact Hne. apply IH.
Qed.

End MapLoops.

(** ** [Service.ResolveParameterSet] *)
Section ResolveParameterSet.

(** C9. When the parameter provider resolves the set, [ResolveParameterSet]
    returns no error, whatever the conversions do: the returned mapping has
    exactly the resolved names, a name whose conversion fails is mapped to
    its raw value, and a name whose conversion succeeds to the converted
    value. *)
Theorem ResolveParameterSet_conversion_degrades (s : sanitizer.Service)
    (pset : parameters.ParameterSet) (bun : cnab.ExtendedBundle)
    (params : gmap string any) :
  parameters.ResolveAll (sanitizer.parameter s) pset = (params, None) →
  ∃ resolved,
    sanitizer.ResolveParameterSet s pset bun = (resolved, None) ∧
    ∀ name,
      (params !! name = None → resolved !! name = None) ∧
      ∀ value converted err,
        params !! name = Some value →
        cnab.ConvertParameterValue bun name value = (converted, err) →
        (err ≠ None → resolved !! name = Some value) ∧
        (err = None → resolved !! name = Some converted).
Proof.
  intros Hall. unfold sanitizer.ResolveParameterSet. rewrite Hall.
  eexists; split; [reflexivity|].
  intros name. rewrite convertInto_lookup. split.
  - now intros ->.
  - intros value converted err -> Hconv. simpl.
    unfold convertedOrRaw. rewrite Hconv.
    destruct err as [e|]; simpl; split; intros; congruence.
Qed.

End ResolveParameterSet.

Lemma ResolveParameterSet_conversion_degrades_witness :
  ∃ resolved,
    sanitizer.ResolveParameterSet sample.service sample.userSet sample.bundle
    = (resolved, None) ∧
    resolved !! "count" = Some (AnyString "many") ∧
    resolved !! "region" = Some (AnyString "eu") ∧
    resolved !! "password" = None.
Proof.
  destruct (ResolveParameterSet_conversion_degrades sample.service sample.userSet
              sample.bundle _ eq_refl) as (resolved & Hres & Hnames).
  exists resolved. split; [exact Hres|]. split; [|split].
  - apply (proj1 (proj2 (Hnames "count") (AnyString "many") AnyNil
                    (Some (errors.New "cannot convert to integer"))
                    eq_refl eq_refl)).
    discriminate.
  - apply (proj2 (proj2 (Hnames "region") (AnyString "eu") (AnyString "eu") None
                    eq_refl eq_refl)).
    reflexivity.
  - apply (proj1 (Hnames "password")). reflexivity.
Defined.

(** ** [Run.ResolveSensitiveData] *)
Section ResolveSensitiveDataProperties.

Variable ParameterSetResolve :
  parameters.ParameterSet → parameters.Provider → cnab.ExtendedBundle →
  gmap string any * option error.

Lemma resolveFrom_ok (resolver : parameters.Provider) (bun : cnab.ExtendedBundle)
    (psets : list parameters.ParameterSet) :
  ∀ (ms : list (gmap string any)) (acc : gmap string any),
    Forall2 (λ pset m, ParameterSetResolve pset resolver bun = (m, None))
      psets ms →
    claims.resolveFrom ParameterSetResolve resolver bun psets acc
    = (foldl (λ resolved params, claims.mergeInto params resolved) acc ms, None).
Proof.
  induction psets as [|pset rest IH]; intros ms acc Hall;
    inversion Hall as [|? m ? ms' Hset Hrest]; subst; simpl.
  - reflexivity.
  - rewrite Hset. now apply IH.
Qed.

Lemma merged_lookup (ms : list (gmap string any)) :
  ∀ (acc : gmap string any) (name : string) (value : any),
    foldl (λ resolved params, claims.mergeInto params resolved) acc ms !! name
    = Some value ↔
    lastBinding ms name value ∨
    (acc !! name = Some value ∧ ∀ j m', ms !! j = Some m' → m' !! name = None).
Proof.
  unfold lastBinding.
  induction ms as [|m rest IH]; intros acc name value; simpl.
  - split.
    + intros Hacc. right. split; [exact Hacc|]. intros j m' Hj. inversion Hj.
    + intros [(i & m & Hi & _) | [Hacc _]]; [inversion Hi | exact Hacc].
  - rewrite IH, mergeInto_lookup. split.
    + intros [(i & m0 & Hi & Hm0 & Hlater) | [Hacc Hnone]].
      * left. exists (S i), m0. split; [exact Hi|]. split; [exact Hm0|].
        intros [|j] m' Hlt Hj; [lia|]. apply (Hlater j); [lia | exact Hj].
      * destruct (m !! name) as [x|] eqn:Hm.
        -- left. exists 0, m. split; [reflexivity|].
           split; [congruence|].
           intros [|j] m' Hlt Hj; [lia|]. now apply (Hnone j).
        -- right. split; [exact Hacc|].
           intros [|j] m' Hj; [injection Hj as <-; exact Hm | now apply (Hnone j)].
    + intros [(i & m0 & Hi & Hm0 & Hlater) | [Hacc Hnone]].
      * destruct i as [|i].
        -- injection Hi as <-. right. rewrite Hm0. split; [reflexivity|].
           intros j m' Hj. apply (Hlater (S j)); [lia | exact Hj].
        -- left. exists i, m0. split; [exact Hi|]. split; [exact Hm0|].
           intros j m' Hlt Hj. apply (Hlater (S j)); [lia | exact Hj].
      * right. rewrite (Hnone 0 m eq_refl). split; [exact Hacc|].
        intros j m' Hj. now apply (Hnone (S j)).
Qed.

(** C8. When every parameter set of the run resolves, to the mappings [ms]
    in list order, [ResolveSensitiveData] succeeds and returns a run whose
    [Parameters] field binds a name to a value exactly when the last set
    that binds the name binds it to that value (on a name bound by several
    sets the later set wins), and whose other fields are those of the run
    it was given: the result is stored in the [Parameters] field only. *)
Theorem ResolveSensitiveData_later_set_wins (r : claims.Run)
    (resolver : parameters.Provider) (ms : list (gmap string any)) :
  Forall2 (λ pset m,
             ParameterSetResolve pset resolver (claims.Bundle r) = (m, None))
    (claims.ParameterSets r) ms →
  ∃ r',
    claims.ResolveSensitiveData ParameterSetResolve r resolver = (r', None) ∧
    (∀ name value,
       claims.Parameters r' !! name = Some value ↔ lastBinding ms name value) ∧
    sameButParameters r r'.
Proof.
  intros Hall. unfold claims.ResolveSensitiveData.
  rewrite (resolveFrom_ok _ _ _ ms ∅ Hall).
  eexists; split; [reflexivity|]. split.
  - intros name value. cbn [claims.Parameters claims.withParameters].
    rewrite merged_lookup. split.
    + intros [Hlast | [Hempty _]]; [exact Hlast|].
      rewrite lookup_empty in Hempty. discriminate.
    + intros Hlast. now left.
  - repeat split.
Qed.

End ResolveSensitiveDataProperties.

Example ResolveSensitiveData_merge_rule :
  let out := claims.ResolveSensitiveData sample.resolveSet sample.staleRun
               (sanitizer.parameter sample.service) in
  claims.Parameters (fst out)
  = <["a" := AnyInt 1]> (<["b" := AnyInt 3]> (<["c" := AnyInt 4]> ∅)) ∧
  snd out = None.
Proof. vm_compute. split; reflexivity. Qed.

Lemma ResolveSensitiveData_later_set_wins_witness :
  ∃ r',
    claims.ResolveSensitiveData sample.resolveSet sample.staleRun
      (sanitizer.parameter sample.service) = (r', None) ∧
    claims.Parameters r' !! "a" = Some (AnyInt 1) ∧
    claims.Parameters r' !! "b" = Some (AnyInt 3) ∧
    claims.Parameters r' !! "c" = Some (AnyInt 4) ∧
    claims.Parameters r' !! "z" = None ∧
    claims.ParameterSets r' = [sample.firstSet; sample.secondSet] ∧
    claims.ID r' = "run1".
Proof.
  assert (Hall : Forall2
            (λ pset m, sample.resolveSet pset (sanitizer.parameter sample.service)
                         (claims.Bundle sample.staleRun) = (m, None))
            (claims.ParameterSets sample.staleRun)
            [sample.firstMap; sample.secondMap])
    by (repeat constructor).
  destruct (ResolveSensitiveData_later_set_wins sample.resolveSet sample.staleRun
              (sanitizer.parameter sample.service)
              [sample.firstMap; sample.secondMap] Hall)
    as (r' & Hres & Hlast & Hsame).
  exists r'. split; [exact Hres|].
  split; [|split; [|split; [|split]]].
  - apply Hlast. exists 0, sample.firstMap.
    split; [reflexivity|]. split; [reflexivity|].
    intros [|[|j]] m' Hlt Hj; [lia | injection Hj as <-; reflexivity
                               | discriminate Hj].
  - apply Hlast. exists 1, sample.secondMap.
    split; [reflexivity|]. split; [reflexivity|].
    intros [|[|j]] m' Hlt Hj; [lia | lia | discriminate Hj].
  - apply Hlast. exists 1, sample.secondMap.
    split; [reflexivity|]. split; [reflexivity|].
    intros [|[|j]] m' Hlt Hj; [lia | lia | discriminate Hj].
  - destruct (claims.Parameters r' !! "z") as [value|] eqn:Hz; [|reflexivity].
    apply Hlast in Hz as (i & m & Hi & Hm & _).
    destruct i as [|[|i]];
      [injection Hi as <-; discriminate Hm
      | injection Hi as <-; discriminate Hm
      | discriminate Hi].
  - destruct Hsame as (_ & Hid & _ & _ & _ & _ & _ & _ & _ & _ & _ & _ & Hsets & _).
    split; [exact Hsets | exact Hid].
Defined.

(** * Further properties *)

(** ** More on [Service.Parameters] *)
Section ParametersMore.

Context {S : Type} `{secrets.Store S}.

Lemma callCreate_log (w w' : secrets.World S) (k v p : string)
    (err : option error) :
  secrets.callCreate w k v p = (w', err) →
  secrets.created w' = secrets.created w ++ [(k, v, p)].
Proof.
  unfold secrets.callCreate.
  destruct (secrets.Create (secrets.state w) k v p) as [st' err'].
  intros Heq; injection Heq as <- _. reflexivity.
Qed.

Lemma parametersFrom_ext (bun : cnab.ExtendedBundle) (id : string)
    (ps1 : list secrets.Strategy) :
  ∀ (ps2 : list secrets.Strategy) (w : secrets.World S)
    (acc : list secrets.Strategy),
    map secrets.Name ps1 = map secrets.Name ps2 →
    map secrets.Value ps1 = map secrets.Value ps2 →
    sanitizer.parametersFrom w ps1 bun id acc
    = sanitizer.parametersFrom w ps2 bun id acc.
Proof.
  induction ps1 as [|p1 rest1 IH]; intros [|p2 rest2] w acc Hn Hv;
    try discriminate; [reflexivity|].
  injection Hn as Hn Hns. injection Hv as Hv Hvs. simpl.
  rewrite Hn, Hv.
  destruct (cnab.IsSensitiveParameter bun (secrets.Name p2)).
  - destruct (secrets.callCreate w _ _ _) as [w1 [e|]]; [reflexivity|].
    now apply IH.
  - now apply IH.
Qed.

Lemma parametersFrom_plain (bun : cnab.ExtendedBundle) (id : string)
    (params : list secrets.Strategy) :
  ∀ (w : secrets.World S) (acc : list secrets.Strategy),
    Forall (λ param,
              cnab.IsSensitiveParameter bun (secrets.Name param) = false)
      params →
    sanitizer.parametersFrom w params bun id acc
    = (w, (acc ++ map (λ param,
                         parameters.DefaultStrategy (secrets.Name param)
                           (secrets.Value param)) params, None)).
Proof.
  induction params as [|param rest IH]; intros w acc Hall; simpl.
  - rewrite app_nil_r. now destruct acc.
  - inversion Hall as [|? ? Hparam Hrest]; subst. rewrite Hparam.
    rewrite (IH _ _ Hrest), <- app_assoc. reflexivity.
Qed.

Lemma creation_sensitive (bun : cnab.ExtendedBundle) (id : string)
    (param : secrets.Strategy) :
  cnab.IsSensitiveParameter bun (secrets.Name param) = true →
  creation bun id param
  = Some (secrets.SourceSecret, id +:+ secrets.Name param, secrets.Value param).
Proof. intros Hsens. unfold creation. now rewrite Hsens. Qed.

Lemma creation_plain (bun : cnab.ExtendedBundle) (id : string)
    (param : secrets.Strategy) :
  cnab.IsSensitiveParameter bun (secrets.Name param) = false →
  creation bun id param = None.
Proof. intros Hsens. unfold creation. now rewrite Hsens. Qed.

Lemma parametersFrom_fail (bun : cnab.ExtendedBundle) (id : string)
    (params : list secrets.Strategy) :
  ∀ (w w' : secrets.World S) (acc result : list secrets.Strategy) (err : error),
    sanitizer.parametersFrom w params bun id acc = (w', (result, Some err)) →
    result = [] ∧
    ∃ pre param post e,
      params = pre ++ param :: post ∧
      cnab.IsSensitiveParameter bun (secrets.Name param) = true ∧
      err = errors.Wrap e "failed to save sensitive param to secrete store" ∧
      secrets.created w'
      = secrets.created w ++ omap (creation bun id) (pre ++ [param]).
Proof.
  induction params as [|param rest IH]; intros w w' acc result err; simpl.
  - destruct (decide _); discriminate.
  - destruct (cnab.IsSensitiveParameter bun (secrets.Name param)) eqn:Hsens.
    + destruct (secrets.callCreate w _ _ _) as [w1 [e|]] eqn:Hcreate;
        simpl in Hcreate; apply callCreate_log in Hcreate.
      * intros Heq; injection Heq as <- <- <-. split; [reflexivity|].
        exists [], param, rest, e. simpl.
        rewrite (creation_sensitive _ _ _ Hsens). auto.
      * intros Hrest.
        apply IH in Hrest as (-> & pre & param' & post & e & -> & Hs & -> & Hlog).
        split; [reflexivity|].
        exists (param :: pre), param', post, e. simpl.
        rewrite (creation_sensitive _ _ _ Hsens), Hlog, Hcreate, <- app_assoc.
        auto.
    + intros Hrest.
      apply IH in Hrest as (-> & pre & param' & post & e & -> & Hs & -> & Hlog).
      split; [reflexivity|].
      exists (param :: pre), param', post, e. simpl.
      rewrite (creation_plain _ _ _ Hsens). auto.
Qed.

(** X1. [Parameters] reads only the name and the value of each input
    strategy: two inputs that agree on names and values, whatever their
    sources, give the same strategies, the same error and the same store. *)
Theorem Parameters_ignores_sources (w : secrets.World S)
    (ps1 ps2 : list secrets.Strategy) (bun : cnab.ExtendedBundle) (id : string) :
  map secrets.Name ps1 = map secrets.Name ps2 →
  map secrets.Value ps1 = map secrets.Value ps2 →
  sanitizer.Parameters w ps1 bun id = sanitizer.Parameters w ps2 bun id.
Proof. intros Hn Hv. now apply parametersFrom_ext. Qed.

(** X2. When [Parameters] succeeds, the [Create] calls it made are exactly
    one per sensitive parameter, in input order, each under the secret
    marker and [runID+name] with the parameter's value; and when no
    parameter is sensitive it always succeeds, returns the default strategy
    of each input and leaves the store and its log untouched. *)
Theorem Parameters_creates_sensitive_only (w : secrets.World S)
    (params : list secrets.Strategy) (bun : cnab.ExtendedBundle) (id : string) :
  (∀ w' result,
     sanitizer.Parameters w params bun id = (w', (result, None)) →
     secrets.created w'
     = secrets.created w
       ++ map (λ param, (secrets.SourceSecret, id +:+ secrets.Name param,
                         secrets.Value param))
            (filter (λ param,
                       cnab.IsSensitiveParameter bun (secrets.Name param) = true)
               params)) ∧
  (Forall (λ param, cnab.IsSensitiveParameter bun (secrets.Name param) = false)
     params →
   sanitizer.Parameters w params bun id
   = (w, (map (λ param, parameters.DefaultStrategy (secrets.Name param)
                          (secrets.Value param)) params, None))).
Proof.
  split.
  - intros w' result Hok. apply Parameters_ok in Hok as [_ ->]. f_equal.
    clear. induction params as [|param rest IH]; [reflexivity|].
    simpl. rewrite filter_cons.
    destruct (cnab.IsSensitiveParameter bun (secrets.Name param)) eqn:Hsens.
    + rewrite (creation_sensitive _ _ _ Hsens).
      rewrite decide_True by reflexivity. rewrite fmap_cons.
      f_equal. exact IH.
    + rewrite (creation_plain _ _ _ Hsens).
      rewrite decide_False by discriminate. exact IH.
  - intros Hall. apply (parametersFrom_plain bun id params w [] Hall).
Qed.


(** X4. Sanitising again the strategies that a successful [Parameters]
    returned behaves, from any store and for any bundle and run ID, exactly
    as sanitising the original input: the returned strategies still carry
    every name and plaintext. *)
Theorem Parameters_resanitize (w w1 w2 : secrets.World S)
    (params result : list secrets.Strategy) (bun bun' : cnab.ExtendedBundle)
    (id id' : string) :
  sanitizer.Parameters w params bun id = (w1, (result, None)) →
  sanitizer.Parameters w2 result bun' id'
  = sanitizer.Parameters w2 params bun' id'.
Proof.
  intros Hok. apply Parameters_ok in Hok as [-> _].
  apply parametersFrom_ext; rewrite <- list_fmap_compose;
    apply list_fmap_ext; intros i param _; simpl; apply sanitized_name_value.
Qed.

Context `{!secrets.StoreContract S}.

(** X5. Over a store that honours its contract, a successful [Parameters]
    never saw two sensitive parameters of one name with different values:
    sensitive parameters that share a name share their value. *)
Theorem Parameters_same_name_same_value (w w' : secrets.World S)
    (params result : list secrets.Strategy) (bun : cnab.ExtendedBundle)
    (id : string) (p1 p2 : secrets.Strategy) :
  sanitizer.Parameters w params bun id = (w', (result, None)) →
  p1 ∈ params → p2 ∈ params →
  cnab.IsSensitiveParameter bun (secrets.Name p1) = true →
  secrets.Name p1 = secrets.Name p2 →
  secrets.Value p1 = secrets.Value p2.
Proof.
  intros Hok Hin1 Hin2 Hsens Hname.
  destruct (parametersFrom_store _ _ _ _ _ _ _ Hok) as [_ Hstore].
  pose proof (Hstore p1 Hin1 Hsens) as H1.
  pose proof (Hstore p2 Hin2 ltac:(now rewrite <- Hname)) as H2.
  rewrite Hname in H1. congruence.
Qed.

End ParametersMore.

Lemma Parameters_ignores_sources_witness :
  sanitizer.Parameters inmemory.empty
    [secrets.mkStrategy "password" (secrets.mkSource "env" "PASSWORD") "hunter2"]
    sample.bundle "run1"
  = sanitizer.Parameters inmemory.empty [sample.plain "password" "hunter2"]
      sample.bundle "run1".
Proof.
  apply (Parameters_ignores_sources inmemory.empty
           [secrets.mkStrategy "password" (secrets.mkSource "env" "PASSWORD")
              "hunter2"]
           [sample.plain "password" "hunter2"] sample.bundle "run1");
    reflexivity.
Defined.

Lemma Parameters_creates_sensitive_only_witness :
  let params := [sample.plain "region" "eu"; sample.plain "password" "hunter2"] in
  (∃ w' result,
     sanitizer.Parameters inmemory.empty params sample.bundle "run1"
     = (w', (result, None)) ∧
     secrets.created w' = [("secret", "run1password", "hunter2")]) ∧
  sanitizer.Parameters inmemory.empty [sample.plain "region" "eu"]
    sample.bundle "run1"
  = (inmemory.empty, ([sample.plain "region" "eu"], None)).
Proof.
  intros params. split.
  - pose (out := sanitizer.Parameters inmemory.empty params sample.bundle "run1").
    assert (Hok : sanitizer.Parameters inmemory.empty params sample.bundle "run1"
                  = (fst out, (fst (snd out), None))) by (vm_compute; reflexivity).
    exists (fst out), (fst (snd out)). split; [exact Hok|].
    exact (proj1 (Parameters_creates_sensitive_only inmemory.empty params
                    sample.bundle "run1") _ _ Hok).
  - apply (proj2 (Parameters_creates_sensitive_only inmemory.empty
                    [sample.plain "region" "eu"] sample.bundle "run1")).
    repeat constructor.
Defined.


Lemma Parameters_resanitize_witness :
  let params := [sample.plain "region" "eu"; sample.plain "password" "hunter2"] in
  ∃ w1 result,
    sanitizer.Parameters inmemory.empty params sample.bundle "run1"
    = (w1, (result, None)) ∧
    sanitizer.Parameters inmemory.empty result sample.bundle "run2"
    = sanitizer.Parameters inmemory.empty params sample.bundle "run2".
Proof.
  intros params.
  pose (out := sanitizer.Parameters inmemory.empty params sample.bundle "run1").
  assert (Hok : sanitizer.Parameters inmemory.empty params sample.bundle "run1"
                = (fst out, (fst (snd out), None))) by (vm_compute; reflexivity).
  exists (fst out), (fst (snd out)). split; [exact Hok|].
  exact (Parameters_resanitize _ _ inmemory.empty _ _ _ sample.bundle _ "run2"
           Hok).
Defined.

(** The deduping store honours the contract. *)
#[global] Instance dedupe_contract : secrets.StoreContract dedupe.Store.
Proof.
  split; simpl; unfold dedupe.Create, dedupe.Resolve.
  - intros st st' k v p. destruct (dedupe.content st !! (k, v)) as [p0|] eqn:Hst.
    + destruct (String.eqb_spec p0 p) as [-> | Hne]; [|discriminate].
      intros Heq; injection Heq as <-. now rewrite Hst.
    + intros Heq; injection Heq as <-. simpl. now rewrite lookup_insert_eq.
  - intros st st' k v p k' v'.
    destruct (dedupe.content st !! (k, v)) as [p0|] eqn:Hst.
    + destruct (String.eqb p0 p); [|discriminate].
      intros Heq _; injection Heq as <-. reflexivity.
    + intros Heq Hne; injection Heq as <-. simpl.
      rewrite lookup_insert_ne by congruence. reflexivity.
  - intros st st' k v p p0. destruct (dedupe.content st !! (k, v)) as [p1|] eqn:Hst;
      [|discriminate].
    intros Heq; injection Heq as ->.
    destruct (String.eqb_spec p0 p) as [-> | Hne]; [reflexivity | discriminate].
Qed.

Lemma Parameters_same_name_same_value_witness :
  let p1 := secrets.mkStrategy "password" (secrets.mkSource "" "") "hunter2" in
  let p2 := secrets.mkStrategy "password" (secrets.mkSource "env" "PW") "hunter2" in
  ∃ w' result,
    sanitizer.Parameters dedupe.empty [p1; p2] sample.bundle "run1"
    = (w', (result, None)) ∧
    p1 ≠ p2 ∧ secrets.Value p1 = secrets.Value p2.
Proof.
  intros p1 p2.
  pose (out := sanitizer.Parameters dedupe.empty [p1; p2] sample.bundle "run1").
  assert (Hok : sanitizer.Parameters dedupe.empty [p1; p2] sample.bundle "run1"
                = (fst out, (fst (snd out), None))) by (vm_compute; reflexivity).
  exists (fst out), (fst (snd out)). split; [exact Hok|].
  split; [discriminate|].
  apply (Parameters_same_name_same_value _ _ _ _ _ _ p1 p2 Hok).
  - left.
  - right; left.
  - reflexivity.
  - reflexivity.
Defined.

(** ** More on [Service.Output], [ResolveOutput] and [ResolveOutputs] *)
Section OutputMore.

Context {S : Type} `{secrets.StoreContract S}.







End OutputMore.



Section ResolveOutputsMore.

Context {S : Type} `{secrets.Store S}.
Context {Outputs : Type} `{claims.OutputsAPI Outputs}.

Lemma resolveOutputsFrom_ok_inv (w : secrets.World S) (bun : cnab.ExtendedBundle)
    (o o' : Outputs) (ots : list claims.Output) :
  ∀ acc,
    sanitizer.resolveOutputsFrom w o ots bun acc = (o', None) →
    o' = claims.NewOutputs (acc ++ map (resolvedOutput w bun) ots).
Proof.
  induction ots as [|ot rest IH]; intros acc; simpl.
  - rewrite app_nil_r. intros Heq; now injection Heq as <-.
  - unfold resolvedOutput at 1.
    destruct (cnab.IsOutputSensitive bun (claims.Name ot)) as [sensitive err].
    destruct (sanitizer.failed err || negb sensitive).
    + intros Hrest. apply IH in Hrest as ->. now rewrite <- app_assoc.
    + destruct (sanitizer.ResolveOutput w ot) as [r [e|]]; [discriminate|].
      intros Hrest. apply IH in Hrest as ->. now rewrite <- app_assoc.
Qed.

Lemma resolvedOutput_identity (w : secrets.World S) (bun : cnab.ExtendedBundle)
    (ot : claims.Output) :
  claims.Name (resolvedOutput w bun ot) = claims.Name ot ∧
  claims.RunID (resolvedOutput w bun ot) = claims.RunID ot ∧
  claims.Key (resolvedOutput w bun ot) = claims.Key ot.
Proof.
  unfold resolvedOutput, sanitizer.ResolveOutput.
  destruct (cnab.IsOutputSensitive bun (claims.Name ot)) as [sensitive err].
  destruct (sanitizer.failed err || negb sensitive); [auto|].
  destruct (secrets.callResolve w _ _) as [p [e|]]; auto.
Qed.

(** X8. When [ResolveOutputs] succeeds, the collection it returns is built
    from a list that has, position by position, the names, run IDs and keys
    of the outputs it was given: resolving replaces values only, and never
    drops, adds or reorders outputs. *)
Theorem ResolveOutputs_keeps_identity (w : secrets.World S) (o o' : Outputs)
    (bun : cnab.ExtendedBundle) :
  sanitizer.ResolveOutputs w o bun = (o', None) →
  ∃ resolved,
    o' = claims.NewOutputs resolved ∧
    map claims.Name resolved = map claims.Name (claims.OutputsValue o) ∧
    map claims.RunID resolved = map claims.RunID (claims.OutputsValue o) ∧
    map claims.Key resolved = map claims.Key (claims.OutputsValue o).
Proof.
  intros Hok. apply resolveOutputsFrom_ok_inv in Hok. simpl in Hok.
  exists (map (resolvedOutput w bun) (claims.OutputsValue o)).
  split; [exact Hok|].
  repeat split; rewrite <- list_fmap_compose; apply list_fmap_ext;
    intros i ot _; simpl; apply resolvedOutput_identity.
Qed.

End ResolveOutputsMore.

Lemma ResolveOutputs_keeps_identity_witness :
  let batch :=
    [claims.mkOutput "log" "run1" "" [Byte.x6f; Byte.x6b];
     claims.mkOutput "token" "run1" "run1token" []] in
  ∃ resolved,
    sanitizer.ResolveOutputs sample.takenStore batch sample.bundle
    = (resolved, None) ∧
    map claims.Name resolved = ["log"; "token"] ∧
    map claims.Key resolved = [""; "run1token"].
Proof.
  intros batch.
  pose (out := sanitizer.ResolveOutputs sample.takenStore batch sample.bundle).
  assert (Hok : sanitizer.ResolveOutputs sample.takenStore batch sample.bundle
                = (fst out, None)) by (vm_compute; reflexivity).
  destruct (ResolveOutputs_keeps_identity (H0 := sample.outputs)
              sample.takenStore batch (fst out) sample.bundle Hok)
    as (resolved & Hnew & Hnames & _ & Hkeys).
  exists (fst out). split; [exact Hok|].
  rewrite Hnew. simpl. split; [exact Hnames | exact Hkeys].
Defined.

(** ** More on [Run.EncodeInternalParameterSet] *)
Section EncodeInternalMore.

(** The loop that updates the slice in place computes a map over it. *)
Lemma encodeParameters_map (bun : cnab.ExtendedBundle) (id : string)
    (range : list secrets.Strategy) :
  ∀ done : list secrets.Strategy,
    claims.encodeParameters bun id (List.length done) range (done ++ range)
    = done ++ map (encodedParam bun id) range.
Proof.
  induction range as [|param rest IH]; intros done; simpl; [reflexivity|].
  unfold encodedParam at 1.
  destruct (cnab.IsSensitiveParameter bun (secrets.Name param)); simpl.
  - rewrite insert_app_r_alt by lia. rewrite Nat.sub_diag. simpl.
    specialize (IH (done ++ [secrets.mkStrategy (secrets.Name param)
                               (secrets.mkSource secrets.SourceSecret
                                  (id +:+ secrets.Name param))
                               (secrets.Value param)])).
    rewrite length_app, Nat.add_1_r, <- !app_assoc in IH. exact IH.
  - specialize (IH (done ++ [param])).
    rewrite length_app, Nat.add_1_r, <- !app_assoc in IH. exact IH.
Qed.

Lemma encodeInternalFrom_first (r : claims.Run)
    (pre : list parameters.ParameterSet) :
  ∀ (i : nat) (pset : parameters.ParameterSet)
    (post : list parameters.ParameterSet),
    Forall notInternal pre →
    parameters.IsInternalParameterSet pset = true →
    claims.encodeInternalFrom r i (pre ++ pset :: post)
    = (claims.withParameterSets r
         (<[i + List.length pre := encodedSet (claims.Bundle r) (claims.ID r) pset]>
            (claims.ParameterSets r)),
       (encodedSet (claims.Bundle r) (claims.ID r) pset, true)).
Proof.
  induction pre as [|first pre IH]; intros i pset post Hpre Hint; simpl.
  - rewrite Hint. simpl. rewrite Nat.add_0_r.
    pose proof (encodeParameters_map (claims.Bundle r) (claims.ID r)
                  (parameters.Parameters pset) []) as Hmap.
    simpl in Hmap. unfold encodedSet. now rewrite Hmap.
  - inversion Hpre as [|? ? Hfirst Hrest]; subst.
    unfold notInternal in Hfirst. rewrite Hfirst. simpl.
    rewrite (IH (S i) pset post Hrest Hint).
    now replace (S i + List.length pre) with (i + S (List.length pre)) by lia.
Qed.

Lemma EncodeInternalParameterSet_first (r : claims.Run)
    (pre post : list parameters.ParameterSet) (pset : parameters.ParameterSet) :
  claims.ParameterSets r = pre ++ pset :: post →
  Forall notInternal pre →
  parameters.IsInternalParameterSet pset = true →
  claims.EncodeInternalParameterSet r
  = (claims.withParameterSets r
       (pre ++ encodedSet (claims.Bundle r) (claims.ID r) pset :: post),
     (encodedSet (claims.Bundle r) (claims.ID r) pset, true)).
Proof.
  intros Hsets Hpre Hint. unfold claims.EncodeInternalParameterSet.
  rewrite Hsets at 1. rewrite (encodeInternalFrom_first r pre 0 pset post Hpre Hint).
  rewrite Hsets. simpl. rewrite insert_app_r_alt by lia.
  now rewrite Nat.sub_diag.
Qed.

Lemma first_internal_split (psets : list parameters.ParameterSet) :
  Forall notInternal psets ∨
  ∃ pre pset post,
    psets = pre ++ pset :: post ∧ Forall notInternal pre ∧
    parameters.IsInternalParameterSet pset = true.
Proof.
  induction psets as [|pset rest IH].
  - left. constructor.
  - destruct (parameters.IsInternalParameterSet pset) eqn:Hint.
    + right. exists [], pset, rest. repeat split; [constructor | exact Hint].
    + destruct IH as [Hall | (pre & pset' & post & -> & Hpre & Hint')].
      * left. now constructor.
      * right. exists (pset :: pre), pset', post.
        repeat split; [now constructor | exact Hint'].
Qed.

Lemma encodedParam_idempotent (bun : cnab.ExtendedBundle) (id : string)
    (param : secrets.Strategy) :
  encodedParam bun id (encodedParam bun id param) = encodedParam bun id param.
Proof.
  unfold encodedParam.
  destruct (cnab.IsSensitiveParameter bun (secrets.Name param)) eqn:Hsens;
    simpl; now rewrite Hsens.
Qed.

Lemma encodedSet_idempotent (bun : cnab.ExtendedBundle) (id : string)
    (pset : parameters.ParameterSet) :
  encodedSet bun id (encodedSet bun id pset) = encodedSet bun id pset.
Proof.
  unfold encodedSet. simpl. f_equal.
  rewrite <- list_fmap_compose. apply list_fmap_ext.
  intros i param _. apply encodedParam_idempotent.
Qed.

(** X9. When the first internal parameter set of a run stands at index
    [length pre], after sets that are not internal,
    [EncodeInternalParameterSet] returns, with the flag true, that set with
    every sensitive parameter's source replaced by the secret marker and
    [runID+name] and everything else kept (names, values, non-sensitive
    parameters, the set's name and marker), and stores it at that index of
    the run; the run keeps the number, the names and the markers of its
    sets and all its other fields. (Nothing is said of the parameters of the
    other sets.) *)
Theorem EncodeInternalParameterSet_first_internal (r : claims.Run)
    (pre post : list parameters.ParameterSet) (pset : parameters.ParameterSet) :
  claims.ParameterSets r = pre ++ pset :: post →
  Forall (λ p, parameters.IsInternalParameterSet p = false) pre →
  parameters.IsInternalParameterSet pset = true →
  ∃ r' encoded,
    claims.EncodeInternalParameterSet r = (r', (encoded, true)) ∧
    claims.ParameterSets r' !! List.length pre = Some encoded ∧
    map parameters.SetName (claims.ParameterSets r')
    = map parameters.SetName (claims.ParameterSets r) ∧
    map parameters.Internal (claims.ParameterSets r')
    = map parameters.Internal (claims.ParameterSets r) ∧
    sameButParameterSets r r' ∧
    parameters.SetName encoded = parameters.SetName pset ∧
    parameters.Internal encoded = parameters.Internal pset ∧
    List.length (parameters.Parameters encoded)
    = List.length (parameters.Parameters pset) ∧
    ∀ i param,
      parameters.Parameters pset !! i = Some param →
      (cnab.IsSensitiveParameter (claims.Bundle r) (secrets.Name param) = false →
       parameters.Parameters encoded !! i = Some param) ∧
      (cnab.IsSensitiveParameter (claims.Bundle r) (secrets.Name param) = true →
       parameters.Parameters encoded !! i
       = Some (secrets.mkStrategy (secrets.Name param)
                 (secrets.mkSource secrets.SourceSecret
                    (claims.ID r +:+ secrets.Name param))
                 (secrets.Value param))).
Proof.
  intros Hsets Hpre Hint.
  exists (claims.withParameterSets r
            (pre ++ encodedSet (claims.Bundle r) (claims.ID r) pset :: post)),
         (encodedSet (claims.Bundle r) (claims.ID r) pset).
  split; [now apply EncodeInternalParameterSet_first|].
  cbn [claims.ParameterSets claims.withParameterSets].
  split; [now rewrite list_lookup_middle|].
  split; [rewrite Hsets, !fmap_app, !fmap_cons; reflexivity|].
  split; [rewrite Hsets, !fmap_app, !fmap_cons; reflexivity|].
  split; [repeat split|].
  split; [reflexivity|]. split; [reflexivity|]. simpl.
  split; [apply length_map|].
  intros i param Hi. rewrite list_lookup_fmap, Hi. simpl. unfold encodedParam.
  split; intros ->; reflexivity.
Qed.

(** X10. The flag that [EncodeInternalParameterSet] returns is true exactly
    when some parameter set of the run is flagged internal. *)
Theorem EncodeInternalParameterSet_found_iff (r : claims.Run) :
  snd (snd (claims.EncodeInternalParameterSet r)) = true ↔
  Exists (λ pset, parameters.IsInternalParameterSet pset = true)
    (claims.ParameterSets r).
Proof.
  destruct (first_internal_split (claims.ParameterSets r))
    as [Hall | (pre & pset & post & Hsets & Hpre & Hint)].
  - unfold claims.EncodeInternalParameterSet.
    rewrite (encodeInternalFrom_none r _ 0 Hall). simpl. split; [discriminate|].
    intros Hex. apply Exists_exists in Hex as (pset & Hin & Hint).
    rewrite Forall_forall in Hall. specialize (Hall pset Hin).
    unfold notInternal in Hall. congruence.
  - rewrite (EncodeInternalParameterSet_first r pre post pset Hsets Hpre Hint).
    simpl. split; [|reflexivity]. intros _. rewrite Hsets.
    apply Exists_app. right. now left.
Qed.

(** X11. [EncodeInternalParameterSet] is idempotent: on the run it returns
    it returns that same run, the same set and the same flag. *)
Theorem EncodeInternalParameterSet_idempotent (r : claims.Run) :
  claims.EncodeInternalParameterSet
    (fst (claims.EncodeInternalParameterSet r))
  = claims.EncodeInternalParameterSet r.
Proof.
  destruct (first_internal_split (claims.ParameterSets r))
    as [Hall | (pre & pset & post & Hsets & Hpre & Hint)].
  - assert (Hnone : claims.EncodeInternalParameterSet r
                    = (r, (parameters.zero, false)))
      by apply (encodeInternalFrom_none r _ 0 Hall).
    rewrite Hnone. simpl. exact Hnone.
  - rewrite (EncodeInternalParameterSet_first r pre post pset Hsets Hpre Hint).
    simpl.
    rewrite (EncodeInternalParameterSet_first
               (claims.withParameterSets r
                  (pre ++ encodedSet (claims.Bundle r) (claims.ID r) pset :: post))
               pre post (encodedSet (claims.Bundle r) (claims.ID r) pset)
               eq_refl Hpre Hint).
    simpl. rewrite encodedSet_idempotent. reflexivity.
Qed.

End EncodeInternalMore.

Lemma EncodeInternalParameterSet_first_internal_witness :
  let r := sample.run "install"
             [sample.userSet; sample.internalSet; sample.laterInternalSet] in
  ∃ r' encoded,
    claims.EncodeInternalParameterSet r = (r', (encoded, true)) ∧
    claims.ParameterSets r' !! 1 = Some encoded ∧
    map parameters.SetName (claims.ParameterSets r')
    = ["user"; "internal"; "later"] ∧
    claims.ID r' = "run1" ∧
    parameters.Parameters encoded !! 0 = Some (sample.plain "region" "eu") ∧
    parameters.Parameters encoded !! 1
    = Some (secrets.mkStrategy "password"
              (secrets.mkSource "secret" "run1password") "hunter2").
Proof.
  intros r.
  destruct (EncodeInternalParameterSet_first_internal r [sample.userSet]
              [sample.laterInternalSet] sample.internalSet eq_refl
              ltac:(repeat constructor) eq_refl)
    as (r' & encoded & Henc & Hat & Hnames & _ & Hsame & _ & _ & _ & Hpos).
  exists r', encoded. split; [exact Henc|]. split; [exact Hat|].
  split; [exact Hnames|].
  split; [exact (proj1 (proj2 Hsame))|]. split.
  - exact (proj1 (Hpos 0 (sample.plain "region" "eu") eq_refl) eq_refl).
  - exact (proj2 (Hpos 1 (sample.plain "password" "hunter2") eq_refl) eq_refl).
Defined.

Section EncodeInternalAndParameters.

Context {S : Type} `{secrets.StoreContract S}.

(** X12. The indirections of [EncodeInternalParameterSet] point at the
    secrets of [Parameters]: when [Parameters], called with the run's bundle
    and ID on the parameters of the run's first internal set, succeeds over
    a store that honours its contract, then at the position of every
    sensitive parameter the encoded set holds the source that [Parameters]
    returned there, and the store resolves that source to the parameter's
    value. *)
Theorem EncodeInternalParameterSet_points_at_secrets (r : claims.Run)
    (pre post : list parameters.ParameterSet) (pset : parameters.ParameterSet)
    (w w' : secrets.World S) (result : list secrets.Strategy) :
  claims.ParameterSets r = pre ++ pset :: post →
  Forall (λ p, parameters.IsInternalParameterSet p = false) pre →
  parameters.IsInternalParameterSet pset = true →
  sanitizer.Parameters w (parameters.Parameters pset) (claims.Bundle r)
    (claims.ID r) = (w', (result, None)) →
  ∃ r' encoded,
    claims.EncodeInternalParameterSet r = (r', (encoded, true)) ∧
    ∀ i param,
      parameters.Parameters pset !! i = Some param →
      cnab.IsSensitiveParameter (claims.Bundle r) (secrets.Name param) = true →
      ∃ enc stored,
        parameters.Parameters encoded !! i = Some enc ∧
        result !! i = Some stored ∧
        secrets.Source_ enc = secrets.Source_ stored ∧
        secrets.Value enc = secrets.Value param ∧
        secrets.callResolve w' (secrets.Key (secrets.Source_ enc))
          (secrets.SourceValue (secrets.Source_ enc))
        = (secrets.Value param, None).
Proof.
  intros Hsets Hpre Hint Hok.
  eexists _, _.
  split; [exact (EncodeInternalParameterSet_first r pre post pset Hsets Hpre Hint)|].
  intros i param Hi Hsens.
  destruct (Parameters_ok _ _ _ _ _ _ Hok) as [-> _].
  destruct (parametersFrom_store _ _ _ _ _ _ _ Hok) as [_ Hstore].
  exists (encodedParam (claims.Bundle r) (claims.ID r) param),
         (sanitized (claims.Bundle r) (claims.ID r) param).
  simpl. rewrite !list_lookup_fmap, Hi. simpl.
  unfold encodedParam, sanitized. rewrite Hsens. simpl.
  repeat split.
  apply Hstore; [|exact Hsens]. eapply list_elem_of_lookup_2; eauto.
Qed.

End EncodeInternalAndParameters.

Lemma EncodeInternalParameterSet_points_at_secrets_witness :
  let r := sample.run "install" [sample.userSet; sample.internalSet] in
  ∃ w' result r' encoded enc,
    sanitizer.Parameters inmemory.empty (parameters.Parameters sample.internalSet)
      sample.bundle "run1" = (w', (result, None)) ∧
    claims.EncodeInternalParameterSet r = (r', (encoded, true)) ∧
    parameters.Parameters encoded !! 1 = Some enc ∧
    secrets.callResolve w' (secrets.Key (secrets.Source_ enc))
      (secrets.SourceValue (secrets.Source_ enc)) = ("hunter2", None).
Proof.
  intros r.
  pose (out := sanitizer.Parameters inmemory.empty
                 (parameters.Parameters sample.internalSet) sample.bundle "run1").
  assert (Hok : sanitizer.Parameters inmemory.empty
                  (parameters.Parameters sample.internalSet)
                  (claims.Bundle r) (claims.ID r)
                = (fst out, (fst (snd out), None))) by (vm_compute; reflexivity).
  destruct (EncodeInternalParameterSet_points_at_secrets r [sample.userSet] []
              sample.internalSet inmemory.empty (fst out) (fst (snd out))
              eq_refl ltac:(repeat constructor) eq_refl Hok)
    as (r' & encoded & Henc & Hpos).
  destruct (Hpos 1 (sample.plain "password" "hunter2") eq_refl eq_refl)
    as (enc & stored & Hi & _ & _ & _ & Hres).
  exists (fst out), (fst (snd out)), r', encoded, enc.
  split; [exact Hok|]. split; [exact Henc|]. split; [exact Hi | exact Hres].
Defined.

(** ** More on [Run.ResolveSensitiveData] *)
Section ResolveSensitiveDataMore.

Variable ParameterSetResolve :
  parameters.ParameterSet → parameters.Provider → cnab.ExtendedBundle →
  gmap string any * option error.

Lemma resolveFrom_fail (resolver : parameters.Provider)
    (bun : cnab.ExtendedBundle) (pre : list parameters.ParameterSet) :
  ∀ (ms : list (gmap string any)) (acc : gmap string any)
    (pset : parameters.ParameterSet) (post : list parameters.ParameterSet)
    (m : gmap string any) (e : error),
    Forall2 (λ pset m, ParameterSetResolve pset resolver bun = (m, None)) pre ms →
    ParameterSetResolve pset resolver bun = (m, Some e) →
    snd (claims.resolveFrom ParameterSetResolve resolver bun
           (pre ++ pset :: post) acc) = Some e.
Proof.
  induction pre as [|first pre IH]; intros ms acc pset post m e Hpre Hfail;
    inversion Hpre as [|? m1 ? ms' Hfirst Hrest]; subst; simpl.
  - now rewrite Hfail.
  - rewrite Hfirst. eapply IH; eauto.
Qed.

(** X13. When the parameter sets before some set resolve and that set does
    not, [ResolveSensitiveData] returns the run exactly as it was, its
    [Parameters] field included, together with that set's error as it is;
    the sets after it play no part. *)
Theorem ResolveSensitiveData_failure (r : claims.Run)
    (resolver : parameters.Provider)
    (pre post : list parameters.ParameterSet) (pset : parameters.ParameterSet)
    (ms : list (gmap string any)) (m : gmap string any) (e : error) :
  claims.ParameterSets r = pre ++ pset :: post →
  Forall2 (λ pset m,
             ParameterSetResolve pset resolver (claims.Bundle r) = (m, None))
    pre ms →
  ParameterSetResolve pset resolver (claims.Bundle r) = (m, Some e) →
  claims.ResolveSensitiveData ParameterSetResolve r resolver = (r, Some e).
Proof.
  intros Hsets Hpre Hfail. unfold claims.ResolveSensitiveData.
  pose proof (resolveFrom_fail resolver (claims.Bundle r) pre ms ∅ pset post m e
                Hpre Hfail) as Herr.
  rewrite <- Hsets in Herr.
  destruct (claims.resolveFrom _ _ _ _ _) as [resolved err].
  simpl in Herr; subst err. reflexivity.
Qed.

(** X14. [ResolveSensitiveData] computes the [Parameters] field afresh: the
    outcome does not depend on the [Parameters] the run held before, and
    resolving the run that a successful call returned gives that run again. *)
Theorem ResolveSensitiveData_recomputes (r : claims.Run)
    (resolver : parameters.Provider) :
  (∀ stale r' err,
     claims.ResolveSensitiveData ParameterSetResolve r resolver = (r', err) →
     ∃ r'',
       claims.ResolveSensitiveData ParameterSetResolve
         (claims.withParameters r stale) resolver = (r'', err) ∧
       (err = None → r'' = r')) ∧
  (∀ r',
     claims.ResolveSensitiveData ParameterSetResolve r resolver = (r', None) →
     claims.ResolveSensitiveData ParameterSetResolve r' resolver = (r', None)).
Proof.
  unfold claims.ResolveSensitiveData. split.
  - intros stale r' err. simpl.
    destruct (claims.resolveFrom _ _ _ _ _) as [resolved [e|]];
      intros Heq; injection Heq as <- <-; eexists; split; try reflexivity.
    discriminate.
  - intros r'.
    destruct (claims.resolveFrom _ _ _ _ _) as [resolved [e|]] eqn:Hres;
      [discriminate|].
    intros Heq; injection Heq as <-. simpl. rewrite Hres. reflexivity.
Qed.

End ResolveSensitiveDataMore.

Lemma ResolveSensitiveData_failure_witness :
  let r := sample.run "install"
             [sample.firstSet; sample.userSet; sample.secondSet] in
  claims.ResolveSensitiveData sample.resolveSet r
    (sanitizer.parameter sample.service)
  = (r, Some (errors.New "parameter set not found")).
Proof.
  intros r.
  apply (ResolveSensitiveData_failure sample.resolveSet r
           (sanitizer.parameter sample.service) [sample.firstSet]
           [sample.secondSet] sample.userSet [sample.firstMap] ∅
           (errors.New "parameter set not found")).
  - reflexivity.
  - repeat constructor.
  - reflexivity.
Defined.

Lemma ResolveSensitiveData_recomputes_witness :
  let r := sample.run "install" [sample.firstSet; sample.secondSet] in
  ∃ r',
    claims.ResolveSensitiveData sample.resolveSet r
      (sanitizer.parameter sample.service) = (r', None) ∧
    claims.ResolveSensitiveData sample.resolveSet
      (claims.withParameters r sample.firstMap)
      (sanitizer.parameter sample.service) = (r', None) ∧
    claims.ResolveSensitiveData sample.resolveSet r'
      (sanitizer.parameter sample.service) = (r', None).
Proof.
  intros r.
  pose (out := claims.ResolveSensitiveData sample.resolveSet r
                 (sanitizer.parameter sample.service)).
  assert (Hok : claims.ResolveSensitiveData sample.resolveSet r
                  (sanitizer.parameter sample.service) = (fst out, None))
    by (vm_compute; reflexivity).
  exists (fst out). split; [exact Hok|]. split.
  - destruct (proj1 (ResolveSensitiveData_recomputes sample.resolveSet r
                       (sanitizer.parameter sample.service))
                sample.firstMap (fst out) None Hok) as (r'' & Hstale & Hsame).
    now rewrite <- (Hsame eq_refl).
  - exact (proj2 (ResolveSensitiveData_recomputes sample.resolveSet r
                    (sanitizer.parameter sample.service)) (fst out) Hok).
Defined.

(** ** [Run.ToCNAB] *)
Section ToCNAB.

Variable CNABSchemaVersion : string.

Lemma append_assoc (a b c : string) : (a +:+ b) +:+ c = a +:+ (b +:+ c).
Proof.
  induction a as [|ch a IH]; [reflexivity|].
  change (String ch ((a +:+ b) +:+ c) = String ch (a +:+ (b +:+ c))).
  now rewrite IH.
Qed.

Lemma append_cons (ch : ascii) (a b : string) :
  String ch a +:+ b = String ch (a +:+ b).
Proof. reflexivity. Qed.

Lemma append_empty (b : string) : "" +:+ b = b.
Proof. reflexivity. Qed.

Lemma smoosh_injective (n1 : string) :
  ∀ n2 i1 i2 : string,
    noSlash n1 = true → noSlash n2 = true →
    (n1 +:+ "/") +:+ i1 = (n2 +:+ "/") +:+ i2 →
    n1 = n2 ∧ i1 = i2.
Proof.
  induction n1 as [|c1 n1 IH]; intros [|c2 n2] i1 i2 H1 H2 Heq;
    repeat (rewrite append_cons in Heq || rewrite append_empty in Heq);
    simpl in H1, H2.
  - injection Heq as ->. auto.
  - injection Heq as <- _. discriminate H2.
  - injection Heq as -> _. discriminate H1.
  - injection Heq as -> Heq.
    apply andb_true_iff in H1 as [_ H1]. apply andb_true_iff in H2 as [_ H2].
    destruct (IH _ _ _ H1 H2 Heq) as [-> ->]. auto.
Qed.

(** X15. The identity that [ToCNAB] gives a claim is lossy: a run of
    installation [a/b] in namespace [ns] and a run of installation [b] in
    namespace [ns/a] project to claims with the same installation name. *)
Theorem ToCNAB_identity_collision (r1 r2 : claims.Run) (ns a b : string) :
  claims.Namespace r1 = ns →
  claims.Installation r1 = a +:+ "/" +:+ b →
  claims.Namespace r2 = ns +:+ "/" +:+ a →
  claims.Installation r2 = b →
  cnab_Claim.Installation (claims.ToCNAB CNABSchemaVersion r1)
  = cnab_Claim.Installation (claims.ToCNAB CNABSchemaVersion r2).
Proof.
  intros Hn1 Hi1 Hn2 Hi2. unfold claims.ToCNAB.
  cbn [cnab_Claim.Installation]. rewrite Hn1, Hi1, Hn2, Hi2.
  now rewrite !append_assoc.
Qed.

(** X16. On runs whose namespaces hold no [/], the identity that [ToCNAB]
    gives a claim is faithful: claims with the same installation name come
    from runs with the same namespace and the same installation. *)
Theorem ToCNAB_identity_injective (r1 r2 : claims.Run) :
  noSlash (claims.Namespace r1) = true →
  noSlash (claims.Namespace r2) = true →
  cnab_Claim.Installation (claims.ToCNAB CNABSchemaVersion r1)
  = cnab_Claim.Installation (claims.ToCNAB CNABSchemaVersion r2) →
  claims.Namespace r1 = claims.Namespace r2 ∧
  claims.Installation r1 = claims.Installation r2.
Proof. intros H1 H2 Heq. exact (smoosh_injective _ _ _ _ H1 H2 Heq). Qed.

End ToCNAB.

Lemma ToCNAB_identity_collision_witness :
  cnab_Claim.Installation (claims.ToCNAB "1.0.0" (sample.runIn "dev" "team/app"))
  = cnab_Claim.Installation (claims.ToCNAB "1.0.0" (sample.runIn "dev/team" "app")) ∧
  sample.runIn "dev" "team/app" ≠ sample.runIn "dev/team" "app".
Proof.
  split; [|discriminate].
  apply (ToCNAB_identity_collision "1.0.0" (sample.runIn "dev" "team/app")
           (sample.runIn "dev/team" "app") "dev" "team" "app"); reflexivity.
Defined.

Lemma ToCNAB_identity_injective_witness :
  cnab_Claim.Installation (claims.ToCNAB "1.0.0" (sample.run "install" []))
  = cnab_Claim.Installation (claims.ToCNAB "1.0.0" (sample.run "upgrade" [])) ∧
  claims.Namespace (sample.run "install" [])
  = claims.Namespace (sample.run "upgrade" []) ∧
  claims.Installation (sample.run "install" [])
  = claims.Installation (sample.run "upgrade" []).
Proof.
  split; [reflexivity|].
  apply (ToCNAB_identity_injective "1.0.0" (sample.run "install" [])
           (sample.run "upgrade" [])); reflexivity.
Defined.

(** ** [Service.RawParameters] *)
Section RawParametersProperties.

Context {S : Type} `{secrets.Store S}.

Variable write : cnab.ExtendedBundle → string → any → string * option error.

Lemma rawStrategiesFrom_ok (bun : cnab.ExtendedBundle)
    (entries : list (string * any)) :
  ∀ acc,
    Forall (renders write bun) entries →
    sanitizer.rawStrategiesFrom write entries bun acc
    = (acc ++ map (rendered write bun) entries, None).
Proof.
  induction entries as [|[name value] rest IH]; intros acc Hall; simpl.
  - now rewrite app_nil_r.
  - inversion Hall as [|? ? Hentry Hrest]; subst.
    unfold renders in Hentry. simpl in Hentry. unfold rendered at 1. simpl.
    destruct (write bun name value) as [stringVal err].
    simpl in Hentry; subst err.
    rewrite (IH _ Hrest), <- app_assoc. reflexivity.
Qed.

Lemma rawStrategiesFrom_fail (bun : cnab.ExtendedBundle)
    (entries : list (string * any)) :
  ∀ acc,
    Exists (λ entry, ¬ renders write bun entry) entries →
    ∃ name value e,
      (name, value) ∈ entries ∧ snd (write bun name value) = Some e ∧
      sanitizer.rawStrategiesFrom write entries bun acc = ([], Some e).
Proof.
  induction entries as [|[name value] rest IH]; intros acc Hex.
  - inversion Hex.
  - simpl. destruct (write bun name value) as [stringVal [e|]] eqn:Hwrite.
    + exists name, value, e. rewrite Hwrite. repeat split. left.
    + inversion Hex as [? ? Hfail | ? ? Hlater]; subst.
      * exfalso. apply Hfail. unfold renders. simpl. now rewrite Hwrite.
      * destruct (IH (acc ++ [parameters.DefaultStrategy name stringVal]) Hlater)
          as (name' & value' & e & Hin & Herr & Hres).
        exists name', value', e. repeat split; [now right | exact Herr | exact Hres].
Qed.

(** X17. When some raw parameter cannot be rendered to a string,
    [RawParameters] returns no strategies and the rendering error of such a
    parameter, as it is, and leaves the store and its log untouched: every
    value is rendered before any secret is written. This holds for every
    order in which the range may yield the entries. *)
Theorem RawParameters_render_failure (w : secrets.World S)
    (entries : list (string * any)) (bun : cnab.ExtendedBundle) (id : string) :
  Exists (λ entry, ¬ renders write bun entry) entries →
  ∃ name value e,
    (name, value) ∈ entries ∧ snd (write bun name value) = Some e ∧
    sanitizer.RawParameters write w entries bun id = (w, ([], Some e)).
Proof.
  intros Hex.
  destruct (rawStrategiesFrom_fail bun entries [] Hex)
    as (name & value & e & Hin & Herr & Hres).
  exists name, value, e. repeat split; [exact Hin | exact Herr|].
  unfold sanitizer.RawParameters. now rewrite Hres.
Qed.

(** X18. When every raw parameter renders, [RawParameters] is [Parameters]
    on the default strategies of the rendered values, in the order in which
    the range yields the entries; so, whatever that order, a successful call
    on a map returns as many strategies as the map has entries, with, for
    each entry, a strategy of that name whose value is the rendered value. *)
Theorem RawParameters_renders_then_sanitizes (w : secrets.World S)
    (params : gmap string any) (entries : list (string * any))
    (bun : cnab.ExtendedBundle) (id : string) :
  entries ≡ₚ map_to_list params →
  Forall (renders write bun) entries →
  sanitizer.RawParameters write w entries bun id
  = sanitizer.Parameters w (map (rendered write bun) entries) bun id ∧
  ∀ w' result,
    sanitizer.RawParameters write w entries bun id = (w', (result, None)) →
    List.length result = size params ∧
    ∀ name value,
      params !! name = Some value →
      ∃ strategy,
        strategy ∈ result ∧ secrets.Name strategy = name ∧
        secrets.Value strategy = fst (write bun name value).
Proof.
  intros Hperm Hall.
  assert (Heq : sanitizer.RawParameters write w entries bun id
                = sanitizer.Parameters w (map (rendered write bun) entries)
                    bun id).
  { unfold sanitizer.RawParameters.
    rewrite (rawStrategiesFrom_ok bun entries [] Hall). simpl.
    destruct (sanitizer.Parameters w _ bun id) as [w' [result [e|]]] eqn:Hres;
      [|reflexivity].
    apply parametersFrom_fail in Hres as [-> _]. reflexivity. }
  split; [exact Heq|].
  intros w' result Hok. rewrite Heq in Hok.
  apply Parameters_ok in Hok as [-> _]. split.
  - rewrite !length_map, Hperm. apply length_map_to_list.
  - intros name value Hlookup.
    exists (sanitized bun id (rendered write bun (name, value))).
    split; [|apply sanitized_name_value].
    apply list_elem_of_fmap_2, list_elem_of_fmap_2.
    rewrite Hperm. now apply elem_of_map_to_list.
Qed.

End RawParametersProperties.

Lemma RawParameters_render_failure_witness :
  let entries := [("password", AnyString "hunter2"); ("replicas", AnyInt 3)] in
  ∃ name value e,
    (name, value) ∈ entries ∧
    sanitizer.RawParameters sample.write inmemory.empty entries sample.bundle
      "run1" = (inmemory.empty, ([], Some e)).
Proof.
  intros entries.
  destruct (RawParameters_render_failure sample.write inmemory.empty entries
              sample.bundle "run1")
    as (name & value & e & Hin & _ & Hres).
  - right. left. intros Hrenders. discriminate Hrenders.
  - exists name, value, e. auto.
Defined.

Lemma RawParameters_renders_then_sanitizes_witness :
  let params : gmap string any :=
    <["password" := AnyString "hunter2"]> (<["debug" := AnyBool true]> ∅) in
  ∃ w' result strategy,
    sanitizer.RawParameters sample.write inmemory.empty (map_to_list params)
      sample.bundle "run1" = (w', (result, None)) ∧
    List.length result = 2 ∧
    strategy ∈ result ∧ secrets.Name strategy = "debug" ∧
    secrets.Value strategy = "true".
Proof.
  intros params.
  assert (Hall : Forall (renders sample.write sample.bundle) (map_to_list params)).
  { apply Forall_forall. intros [name value] Hin.
    apply elem_of_map_to_list in Hin. unfold params in Hin.
    apply lookup_insert_Some in Hin as [[<- <-] | [_ Hin]]; [reflexivity|].
    apply lookup_insert_Some in Hin as [[<- <-] | [_ Hin]]; [reflexivity|].
    rewrite lookup_empty in Hin. discriminate Hin. }
  destruct (RawParameters_renders_then_sanitizes sample.write inmemory.empty
              params (map_to_list params) sample.bundle "run1"
              (reflexivity _) Hall) as [_ Hok].
  pose (out := sanitizer.RawParameters sample.write inmemory.empty
                 (map_to_list params) sample.bundle "run1").
  assert (Hout : sanitizer.RawParameters sample.write inmemory.empty
                   (map_to_list params) sample.bundle "run1"
                 = (fst out, (fst (snd out), None))) by (vm_compute; reflexivity).
  destruct (Hok _ _ Hout) as [Hlen Hnames].
  destruct (Hnames "debug" (AnyBool true) eq_refl) as (strategy & Hin & Hn & Hv).
  exists (fst out), (fst (snd out)), strategy.
  split; [exact Hout|]. split; [exact Hlen|]. auto.
Defined.

(** ** [FileSystem.GetMixins] *)
Section GetMixinsProperties.

Variable Join : string → string → string.
Variable Quote : string → string.

Lemma mixinsFrom_filter (mixinsDir : string) (files : list os.FileInfo) :
  ∀ acc,
    mixinprovider.mixinsFrom Join mixinsDir files acc
    = acc ++ map (mixinOf Join mixinsDir)
               (filter (λ file, os.IsDir file = true) files).
Proof.
  induction files as [|file rest IH]; intros acc; simpl.
  - now rewrite app_nil_r.
  - rewrite filter_cons. destruct (os.IsDir file) eqn:Hdir.
    + rewrite decide_True by reflexivity. simpl.
      rewrite IH, <- app_assoc. reflexivity.
    + rewrite decide_False by discriminate. apply IH.
Qed.

(** X19. When the mixins directory is known and can be listed, [GetMixins]
    succeeds and reports exactly the directories of the listing, in listing
    order and under their own names, plain files being skipped; each mixin's
    directory is the mixins directory joined with its name, and its client
    path that directory joined with its name again. *)
Theorem GetMixins_lists_directories (p : mixinprovider.FileSystem)
    (mixinsDir : string) (files : list os.FileInfo) :
  mixinprovider.GetMixinsDir (mixinprovider.Config_ p) = (mixinsDir, None) →
  mixinprovider.ReadDir (mixinprovider.Config_ p) mixinsDir = (files, None) →
  ∃ mixins,
    mixinprovider.GetMixins Join Quote p = (mixins, None) ∧
    map mixin.Name mixins
    = map os.Name (filter (λ file, os.IsDir file = true) files) ∧
    ∀ m, m ∈ mixins →
      mixin.Dir m = Join mixinsDir (mixin.Name m) ∧
      mixin.ClientPath m = Join (mixin.Dir m) (mixin.Name m).
Proof.
  intros Hdir Hlist. unfold mixinprovider.GetMixins. rewrite Hdir, Hlist.
  rewrite mixinsFrom_filter. simpl. eexists; split; [reflexivity|]. split.
  - rewrite <- list_fmap_compose. reflexivity.
  - intros m Hin. apply list_elem_of_fmap in Hin as (file & -> & _).
    split; reflexivity.
Qed.

(** X20. [GetMixins] fails exactly when the mixins directory is unknown or
    cannot be listed, and then reports no mixins: the first error is
    returned as it is, the second wrapped in a message that names the
    directory. *)
Theorem GetMixins_failure (p : mixinprovider.FileSystem) (err : error) :
  snd (mixinprovider.GetMixins Join Quote p) = Some err ↔
  snd (mixinprovider.GetMixinsDir (mixinprovider.Config_ p)) = Some err ∨
  ∃ mixinsDir e,
    mixinprovider.GetMixinsDir (mixinprovider.Config_ p) = (mixinsDir, None) ∧
    snd (mixinprovider.ReadDir (mixinprovider.Config_ p) mixinsDir) = Some e ∧
    err = errors.Wrap e
            ("could not list the contents of the mixins directory "
             +:+ Quote mixinsDir) ∧
    fst (mixinprovider.GetMixins Join Quote p) = [].
Proof.
  unfold mixinprovider.GetMixins.
  destruct (mixinprovider.GetMixinsDir (mixinprovider.Config_ p))
    as [mixinsDir [e1|]]; simpl.
  - split; [auto|]. intros [Herr | (dir & e & Hdir & _)];
      [exact Herr | discriminate Hdir].
  - destruct (mixinprovider.ReadDir (mixinprovider.Config_ p) mixinsDir)
      as [files [e2|]] eqn:Hlist; simpl.
    + split.
      * intros Heq; injection Heq as <-. right. exists mixinsDir, e2.
        rewrite Hlist. auto.
      * intros [Herr | (dir & e & Hdir & Hread & -> & _)]; [discriminate Herr|].
        injection Hdir as <-. rewrite Hlist in Hread. simpl in Hread.
        now injection Hread as ->.
    + split; [discriminate|].
      intros [Herr | (dir & e & Hdir & Hread & _)]; [discriminate Herr|].
      injection Hdir as <-. rewrite Hlist in Hread. discriminate Hread.
Qed.

End GetMixinsProperties.

Lemma GetMixins_lists_directories_witness :
  ∃ mixins,
    mixinprovider.GetMixins sample.join (λ s, s) sample.home = (mixins, None) ∧
    map mixin.Name mixins = ["exec"; "helm"] ∧
    ∀ m, m ∈ mixins →
      mixin.Dir m = sample.join "/home/me/.porter/mixins" (mixin.Name m) ∧
      mixin.ClientPath m = sample.join (mixin.Dir m) (mixin.Name m).
Proof.
  exact (GetMixins_lists_directories sample.join (λ s, s) sample.home
           "/home/me/.porter/mixins"
           [os.mkFileInfo "exec" true; os.mkFileInfo "README.md" false;
            os.mkFileInfo "helm" true] eq_refl eq_refl).
Defined.
